(** * Softcodes VS Code extension: the unified authentication service and
      the authenticated API client

    A shallow embedding of [src/auth/unifiedAuthService.ts], of the API
    client that sits on top of it and of the constants of the auth
    configuration module, followed by the properties of the session
    lifecycle.

    The extension host is modelled by a [World]: the secret storage is a
    finite map from keys to strings, the in-memory [pendingAuth] map is a
    finite map from states to entries, the network is a script of upcoming
    exchanges consumed by [fetch], and everything the code shows, logs or
    sends is recorded in a trace (newest event first).  The secret storage
    is reliable: [get], [store] and [delete] always resolve.  [fetch] is the
    suspension point of the code: while one is pending other handlers of the
    extension may write to the secret storage, which a script entry records
    as its [meanwhile] writes. *)

From stdpp Require Import gmap strings list fin_maps.
From Stdlib Require Import Ascii ZifyNat ZifyBool.

Local Open Scope string_scope.

(** ** Constants of the auth configuration module *)

Module AUTH_CONFIG.
Definition PRODUCTION_API_BASE_URL : string := "https://softcodes.ai".
Definition DEVELOPMENT_API_BASE_URL : string := "http://localhost:3000".
End AUTH_CONFIG.

Module OAUTH_CONFIG.
Definition VSCODE_REDIRECT_URI : string := "vscode-softcodes://auth/callback".
Definition VSCODE_GRANT_TYPE : string := "authorization_code".
End OAUTH_CONFIG.

Module AUTH_ENDPOINTS.
Definition EXTENSION_CALLBACK : string := "/api/extension/auth/callback".
Definition REFRESH_TOKEN : string := "/api/auth/refresh-token".
Definition VALIDATE_SESSION : string := "/api/auth/validate-session".
Definition SIGN_OUT : string := "/api/auth/sign-out".
Definition INITIATE_VSCODE_AUTH : string := "/api/auth/initiate-vscode-auth".
Definition USER_INFO : string := "/api/auth/user-info".
End AUTH_ENDPOINTS.

Module TOKEN_KEYS.
Definition ACCESS_TOKEN : string := "access_token".
Definition REFRESH_TOKEN : string := "refresh_token".
Definition SESSION_ID : string := "session_id".
Definition ORGANIZATION_ID : string := "organization_id".
Definition PKCE_PREFIX : string := "pkce_".
End TOKEN_KEYS.

Module AUTH_ERRORS.
Definition MISSING_PARAMS : string := "Missing authentication parameters".
Definition INVALID_STATE : string := "Invalid authentication state".
Definition TOKEN_EXCHANGE_FAILED : string := "Token exchange failed".
Definition NETWORK_ERROR : string := "Network error during authentication".
Definition INVALID_RESPONSE : string := "Invalid response from authentication service".
End AUTH_ERRORS.

Module AUTH_SUCCESS.
Definition AUTHENTICATED : string := "Successfully authenticated with Softcodes!".
Definition SIGNED_OUT : string := "Signed out from Softcodes".
End AUTH_SUCCESS.

(** ** JavaScript values the code tests for truthiness *)

(** [!!s] for a string: only the empty string is falsy. *)
Definition truthy (s : string) : bool :=
  if decide (s = "") then false else true.

(** [!!v] for [v : string | undefined] (or [string | null]). *)
Definition present (v : option string) : bool :=
  match v with
  | Some s => truthy s
  | None => false
  end.

(** [a || b] where [a] may be undefined. *)
Definition or_else (a : option string) (b : string) : string :=
  match a with
  | Some s => if truthy s then s else b
  | None => b
  end.

(** ** Data model *)

(** [organization_id?: string | null]. *)
Inductive OrganizationId :=
| org_undefined
| org_null
| org_string (id : string).

(** [interface AuthTokens]. *)
Record AuthTokens := {
  access_token : string;
  refresh_token : string;
  session_id : option string;
  organization_id : OrganizationId
}.

(** A decoded JSON response body, by the shapes the code reads: a token
    payload, an error object with optional [error] and [message] fields, or
    any other document. *)
Inductive Json :=
| JTokens (tokens : AuthTokens)
| JError (error message : option string)
| JData (data : string).

(** [status] and the outcome of [response.json()] ([None]: it rejects). *)
Record Response := {
  status : nat;
  json : option Json
}.

(** [response.ok]. *)
Definition ok (r : Response) : bool :=
  Nat.leb 200 (status r) && Nat.leb (status r) 299.

(** The body given to [fetch]: [JSON.stringify] of an object with string
    fields (in source order), or a string supplied by the caller. *)
Inductive BodyInit :=
| JSON_stringify (fields : list (string * string))
| body_text (text : string).

(** [RequestInit]; an absent [headers] is the empty object. *)
Record RequestInit := {
  method : option string;
  headers : gmap string string;
  body : option BodyInit
}.

Record Request := {
  url : string;
  init : RequestInit
}.

Inductive FetchOutcome :=
| network_error (msg : string)
| responds (r : Response).

(** A write to the secret storage: [Some v] stores, [None] deletes. *)
Definition SecretWrite : Type := string * option string.

(** One scripted network exchange: what the fetch resolves to, and what
    other handlers wrote to the secret storage while it was pending. *)
Record Exchange := {
  outcome : FetchOutcome;
  meanwhile : list SecretWrite
}.

Inductive Event :=
| EFetch (req : Request) (out : FetchOutcome)
| EShowInformationMessage (msg : string)
| EShowErrorMessage (msg : string)
| EExecuteCommand (command : string)
| EConsoleWarn (label : string) (detail : string)
| EConsoleError (label : string) (detail : string).

(** What the code reads from the host besides the secret storage. *)
Record Host := {
  config_backendUrl : option string;   (* getConfiguration('softcodes').get('backendUrl') *)
  NODE_ENV_development : bool;          (* process.env.NODE_ENV === 'development' *)
  extension_version : option string     (* extension?.packageJSON?.version *)
}.

(** [pendingAuth: Map<string, { codeVerifier, state }>]. *)
Record PendingEntry := {
  codeVerifier : string;
  entry_state : string
}.

Record World := {
  host : Host;
  secrets : gmap string string;
  pendingAuth : gmap string PendingEntry;
  network : list Exchange;
  trace : list Event
}.

Definition set_secrets (f : gmap string string → gmap string string) (w : World) : World :=
  {| host := host w; secrets := f (secrets w); pendingAuth := pendingAuth w;
     network := network w; trace := trace w |}.

Definition set_pendingAuth (f : gmap string PendingEntry → gmap string PendingEntry)
    (w : World) : World :=
  {| host := host w; secrets := secrets w; pendingAuth := f (pendingAuth w);
     network := network w; trace := trace w |}.

Definition emit (e : Event) (w : World) : World :=
  {| host := host w; secrets := secrets w; pendingAuth := pendingAuth w;
     network := network w; trace := e :: trace w |}.

Definition apply_write (m : gmap string string) (wr : SecretWrite) : gmap string string :=
  match wr.2 with
  | Some v => <[wr.1 := v]> m
  | None => delete wr.1 m
  end.

Definition apply_writes (ws : list SecretWrite) (m : gmap string string) : gmap string string :=
  foldl apply_write m ws.

(** ** The monad of the asynchronous code

    A computation runs on a world and returns a value, throws an [Error]
    (kept by its message) or, for the one recursive function, runs out of
    the fuel that bounds its recursion. *)

Inductive Result (A : Type) :=
| Ok (a : A)
| Throw (message : string)
| OutOfFuel.
Arguments Ok {A} a.
Arguments Throw {A} message.
Arguments OutOfFuel {A}.

Definition M (A : Type) : Type := World → Result A * World.

Definition ret {A} (a : A) : M A := fun w => (Ok a, w).

Definition throw {A} (message : string) : M A := fun w => (Throw message, w).

Definition bind {A B} (m : M A) (k : A → M B) : M B := fun w =>
  match m w with
  | (Ok a, w') => k a w'
  | (Throw e, w') => (Throw e, w')
  | (OutOfFuel, w') => (OutOfFuel, w')
  end.

(** [try { m } catch (error) { handler(error) }]. *)
Definition try_catch {A} (m : M A) (handler : string → M A) : M A := fun w =>
  match m w with
  | (Ok a, w') => (Ok a, w')
  | (Throw e, w') => handler e w'
  | (OutOfFuel, w') => (OutOfFuel, w')
  end.

Declare Scope js_scope.
Delimit Scope js_scope with js.
Notation "'let*' x ':=' m 'in' k" := (bind m (fun x => k))
  (at level 10, x name, m at level 100, k at level 200) : js_scope.
Notation "m ';;' k" := (bind m (fun _ => k))
  (at level 100, k at level 200, right associativity) : js_scope.
Local Open Scope js_scope.

(** ** Host operations *)

Definition secrets_get (key : string) : M (option string) := fun w =>
  (Ok (secrets w !! key), w).

Definition secrets_store (key value : string) : M unit := fun w =>
  (Ok tt, set_secrets (insert key value) w).

Definition secrets_delete (key : string) : M unit := fun w =>
  (Ok tt, set_secrets (delete key) w).

Definition pendingAuth_delete (state : string) : M unit := fun w =>
  (Ok tt, set_pendingAuth (delete state) w).

Definition pendingAuth_clear : M unit := fun w =>
  (Ok tt, set_pendingAuth (fun _ => ∅) w).

Definition log (e : Event) : M unit := fun w => (Ok tt, emit e w).

(** [fetch]: takes the next exchange of the script, lets its [meanwhile]
    writes happen, and resolves or rejects as scripted.  With no exchange
    left the network is unreachable. *)
Definition fetch (req : Request) : M Response := fun w =>
  match network w with
  | [] => (Throw "fetch failed", emit (EFetch req (network_error "fetch failed")) w)
  | x :: rest =>
      let w' := {| host := host w;
                   secrets := apply_writes (meanwhile x) (secrets w);
                   pendingAuth := pendingAuth w;
                   network := rest;
                   trace := EFetch req (outcome x) :: trace w |} in
      match outcome x with
      | network_error msg => (Throw msg, w')
      | responds r => (Ok r, w')
      end
  end.

(** [response.json()]. *)
Definition SyntaxError : string := "Unexpected end of JSON input".

Definition response_json (r : Response) : M Json :=
  match json r with
  | Some j => ret j
  | None => throw SyntaxError
  end.

(** [generateUserAgent()]. *)
Definition user_agent (h : Host) : string :=
  "VSCode-Softcodes/" +:+ or_else (extension_version h) "unknown".

Definition generateUserAgent : M string := fun w => (Ok (user_agent (host w)), w).

(** ** UnifiedAuthService *)

(** [getAuthConfig().API_BASE_URL]. *)
Definition getAuthConfig_API_BASE_URL (h : Host) : string :=
  if NODE_ENV_development h then AUTH_CONFIG.DEVELOPMENT_API_BASE_URL
  else AUTH_CONFIG.PRODUCTION_API_BASE_URL.

(** [getBackendUrl()]. *)
Definition backend_url (h : Host) : string :=
  let configuredUrl := config_backendUrl h in
  if present configuredUrl then default "" configuredUrl
  else getAuthConfig_API_BASE_URL h.

Definition getBackendUrl : M string := fun w => (Ok (backend_url (host w)), w).

(** The headers of the unauthenticated calls of the service. *)
Definition service_headers (userAgent : string) : gmap string string :=
  <["User-Agent" := userAgent]> (<["Content-Type" := "application/json"]> ∅).

(** The declared type of a token response: [const tokens: AuthTokens =
    await response.json()].  The source does not check the shape; a body of
    another shape is outside [AuthTokens] and is read here as a failed
    decoding. *)
Definition as_AuthTokens (j : Json) : M AuthTokens :=
  match j with
  | JTokens tokens => ret tokens
  | _ => throw "Invalid token payload"
  end.

(** [error.error] and [error.message] of a decoded body. *)
Definition field_error (j : Json) : option string :=
  match j with
  | JError error _ => error
  | _ => None
  end.

Definition field_message (j : Json) : option string :=
  match j with
  | JError _ message => message
  | _ => None
  end.

(** [storeTokens(tokens)]. *)
Definition storeTokens (tokens : AuthTokens) : M unit :=
  secrets_store TOKEN_KEYS.ACCESS_TOKEN (access_token tokens) ;;
  secrets_store TOKEN_KEYS.REFRESH_TOKEN (refresh_token tokens) ;;
  (if present (session_id tokens)
   then secrets_store TOKEN_KEYS.SESSION_ID (default "" (session_id tokens))
   else ret tt) ;;
  match organization_id tokens with
  | org_string id =>
      if truthy id then secrets_store TOKEN_KEYS.ORGANIZATION_ID id else ret tt
  | org_null | org_undefined => ret tt
  end.

(** [signOut()]. *)
Definition signOut : M unit :=
  try_catch
    (secrets_delete TOKEN_KEYS.ACCESS_TOKEN ;;
     secrets_delete TOKEN_KEYS.REFRESH_TOKEN ;;
     secrets_delete TOKEN_KEYS.SESSION_ID ;;
     secrets_delete TOKEN_KEYS.ORGANIZATION_ID ;;
     pendingAuth_clear ;;
     try_catch
       (let* backendUrl := getBackendUrl in
        let* sessionId := secrets_get TOKEN_KEYS.SESSION_ID in
        if present sessionId then
          let* userAgent := generateUserAgent in
          let* _ := fetch {| url := backendUrl +:+ AUTH_ENDPOINTS.SIGN_OUT;
                             init := {| method := Some "POST";
                                        headers := service_headers userAgent;
                                        body := Some (JSON_stringify
                                          [("session_id", default "" sessionId)]) |} |} in
          ret tt
        else ret tt)
       (fun error => log (EConsoleWarn "Failed to notify backend of sign out:" error)) ;;
     log (EShowInformationMessage AUTH_SUCCESS.SIGNED_OUT))
    (fun error =>
       log (EConsoleError "Sign out failed:" error) ;;
       log (EShowErrorMessage ("Sign out failed: " +:+ error))).

(** [refreshAccessToken(refreshToken)]. *)
Definition refreshAccessToken (refreshToken : string) : M (option string) :=
  try_catch
    (let* backendUrl := getBackendUrl in
     let* userAgent := generateUserAgent in
     let* response := fetch {| url := backendUrl +:+ AUTH_ENDPOINTS.REFRESH_TOKEN;
                               init := {| method := Some "POST";
                                          headers := service_headers userAgent;
                                          body := Some (JSON_stringify
                                            [("refresh_token", refreshToken);
                                             ("client_type", "vscode")]) |} |} in
     if negb (ok response) then
       log (EConsoleWarn "Token refresh failed, clearing stored tokens" "") ;;
       signOut ;;
       ret None
     else
       let* j := response_json response in
       let* tokens := as_AuthTokens j in
       storeTokens tokens ;;
       ret (Some (access_token tokens)))
    (fun error =>
       log (EConsoleError "Token refresh failed:" error) ;;
       signOut ;;
       ret None).

(** [getAccessToken()]. *)
Definition getAccessToken : M (option string) :=
  let* accessToken := secrets_get TOKEN_KEYS.ACCESS_TOKEN in
  if negb (present accessToken) then
    let* refreshToken := secrets_get TOKEN_KEYS.REFRESH_TOKEN in
    if present refreshToken then refreshAccessToken (default "" refreshToken)
    else ret accessToken
  else ret accessToken.

(** The callback URI, by what [URLSearchParams.get] returns for the two
    parameters the handler reads ([None] is JavaScript's [null]). *)
Record CallbackUri := {
  query_code : option string;
  query_state : option string
}.

(** [handleCallback(uri)]. *)
Definition handleCallback (uri : CallbackUri) : M unit :=
  try_catch
    (let code := query_code uri in
     let state := query_state uri in
     if negb (present code) || negb (present state) then
       throw AUTH_ERRORS.MISSING_PARAMS
     else
       let code := default "" code in
       let state := default "" state in
       let* codeVerifier := secrets_get (TOKEN_KEYS.PKCE_PREFIX +:+ state) in
       if negb (present codeVerifier) then throw AUTH_ERRORS.INVALID_STATE
       else
         let* backendUrl := getBackendUrl in
         let* userAgent := generateUserAgent in
         let* response := fetch {| url := backendUrl +:+ AUTH_ENDPOINTS.EXTENSION_CALLBACK;
                                   init := {| method := Some "POST";
                                              headers := service_headers userAgent;
                                              body := Some (JSON_stringify
                                                [("code", code);
                                                 ("code_verifier", default "" codeVerifier);
                                                 ("state", state);
                                                 ("redirect_uri", OAUTH_CONFIG.VSCODE_REDIRECT_URI);
                                                 ("grant_type", OAUTH_CONFIG.VSCODE_GRANT_TYPE)]) |} |} in
         if negb (ok response) then
           let* error := try_catch (response_json response)
                           (fun _ => ret (JError (Some AUTH_ERRORS.TOKEN_EXCHANGE_FAILED) None)) in
           throw (or_else (field_error error) AUTH_ERRORS.TOKEN_EXCHANGE_FAILED)
         else
           let* j := response_json response in
           let* tokens := as_AuthTokens j in
           storeTokens tokens ;;
           secrets_delete (TOKEN_KEYS.PKCE_PREFIX +:+ state) ;;
           pendingAuth_delete state ;;
           log (EShowInformationMessage AUTH_SUCCESS.AUTHENTICATED) ;;
           log (EExecuteCommand "softcodes.onAuthenticated"))
    (fun error =>
       log (EConsoleError "Authentication callback failed:" error) ;;
       log (EShowErrorMessage ("Authentication callback failed: " +:+ error))).

(** [validateSession()]. *)
Definition validateSession : M bool :=
  try_catch
    (let* accessToken := getAccessToken in
     let* sessionId := secrets_get TOKEN_KEYS.SESSION_ID in
     if negb (present accessToken) || negb (present sessionId) then ret false
     else
       let* backendUrl := getBackendUrl in
       let* userAgent := generateUserAgent in
       let* response := fetch {| url := backendUrl +:+ AUTH_ENDPOINTS.VALIDATE_SESSION;
                                 init := {| method := Some "POST";
                                            headers :=
                                              <["User-Agent" := userAgent]>
                                              (<["Content-Type" := "application/json"]>
                                              (<["Authorization" := "Bearer " +:+ default "" accessToken]> ∅));
                                            body := Some (JSON_stringify
                                              [("session_id", default "" sessionId);
                                               ("client_type", "vscode")]) |} |} in
       ret (ok response))
    (fun error =>
       log (EConsoleError "Session validation failed:" error) ;;
       ret false).

(** ** ApiClient *)

Record ApiClient := {
  baseUrl : string
}.

(** [new ApiClient(context)]. *)
Definition new_ApiClient (h : Host) : ApiClient :=
  {| baseUrl := or_else (config_backendUrl h) "https://softcodes.ai" |}.

(** The argument of the [fetch] of [request]: the caller's options with
    the headers replaced by the caller's headers overwritten, in this
    order, with the bearer header and the content type. *)
Definition api_request (client : ApiClient) (endpoint : string) (options : RequestInit)
    (accessToken : string) : Request :=
  {| url := baseUrl client +:+ endpoint;
     init := {| method := method options;
                headers := <["Content-Type" := "application/json"]>
                           (<["Authorization" := "Bearer " +:+ accessToken]> (headers options));
                body := body options |} |}.

(** [request(endpoint, options)].  The retry is a recursive call of the
    method; [fuel] bounds the depth of that recursion. *)
Fixpoint request (fuel : nat) (client : ApiClient) (endpoint : string)
    (options : RequestInit) : M Json :=
  match fuel with
  | O => fun w => (OutOfFuel, w)
  | S fuel' =>
      let* accessToken := getAccessToken in
      if negb (present accessToken) then throw "Not authenticated"
      else
        let* response := fetch (api_request client endpoint options (default "" accessToken)) in
        if Nat.eqb (status response) 401 then
          let* newToken := getAccessToken in
          if present newToken && (if decide (newToken = accessToken) then false else true) then
            request fuel' client endpoint options
          else
            log (EExecuteCommand "softcodes.authenticate") ;;
            throw "Authentication required"
        else if negb (ok response) then
          let* error := response_json response in
          throw (or_else (field_message error) "API request failed")
        else response_json response
  end.

(** ** Observations on worlds and traces *)

(** The exchange the next [fetch] will consume. *)
Definition next_exchange (w : World) : Exchange :=
  match network w with
  | [] => {| outcome := network_error "fetch failed"; meanwhile := [] |}
  | x :: _ => x
  end.

(** The world right after a [fetch] of [req] has settled. *)
Definition after_fetch (req : Request) (w : World) : World :=
  {| host := host w;
     secrets := apply_writes (meanwhile (next_exchange w)) (secrets w);
     pendingAuth := pendingAuth w;
     network := tail (network w);
     trace := EFetch req (outcome (next_exchange w)) :: trace w |}.

(** The requests sent in a trace, oldest first. *)
Fixpoint fetch_requests (tr : list Event) : list Request :=
  match tr with
  | [] => []
  | EFetch req _ :: tr' => (fetch_requests tr' ++ [req])%list
  | _ :: tr' => fetch_requests tr'
  end.

(** The four credential keys are absent from a store. *)
Definition credentials_absent (m : gmap string string) : Prop :=
  m !! TOKEN_KEYS.ACCESS_TOKEN = None ∧
  m !! TOKEN_KEYS.REFRESH_TOKEN = None ∧
  m !! TOKEN_KEYS.SESSION_ID = None ∧
  m !! TOKEN_KEYS.ORGANIZATION_ID = None.

(** A fetch outcome that is not a response with a 2xx status. *)
Definition failed (o : FetchOutcome) : bool :=
  match o with
  | network_error _ => true
  | responds r => negb (ok r)
  end.

(** [w'] is [w] with more events in its trace. *)
Definition trace_extends (w w' : World) : Prop :=
  ∃ later, trace w' = (later ++ trace w)%list.

(** The store after [signOut]. *)
Definition purge (m : gmap string string) : gmap string string :=
  delete TOKEN_KEYS.ORGANIZATION_ID
    (delete TOKEN_KEYS.SESSION_ID
       (delete TOKEN_KEYS.REFRESH_TOKEN
          (delete TOKEN_KEYS.ACCESS_TOKEN m))).

(** The world after [signOut]. *)
Definition signed_out (w : World) : World :=
  {| host := host w; secrets := purge (secrets w); pendingAuth := ∅;
     network := network w;
     trace := EShowInformationMessage AUTH_SUCCESS.SIGNED_OUT :: trace w |}.

(** The request of [refreshAccessToken]. *)
Definition refresh_request (h : Host) (refreshToken : string) : Request :=
  {| url := backend_url h +:+ AUTH_ENDPOINTS.REFRESH_TOKEN;
     init := {| method := Some "POST";
                headers := service_headers (user_agent h);
                body := Some (JSON_stringify [("refresh_token", refreshToken);
                                              ("client_type", "vscode")]) |} |}.

(** The token exchange request of [handleCallback]. *)
Definition exchange_request (h : Host) (code verifier state : string) : Request :=
  {| url := backend_url h +:+ AUTH_ENDPOINTS.EXTENSION_CALLBACK;
     init := {| method := Some "POST";
                headers := service_headers (user_agent h);
                body := Some (JSON_stringify
                                [("code", code);
                                 ("code_verifier", verifier);
                                 ("state", state);
                                 ("redirect_uri", OAUTH_CONFIG.VSCODE_REDIRECT_URI);
                                 ("grant_type", OAUTH_CONFIG.VSCODE_GRANT_TYPE)]) |} |}.

(** The request of [validateSession]. *)
Definition validate_request (h : Host) (accessToken sessionId : string) : Request :=
  {| url := backend_url h +:+ AUTH_ENDPOINTS.VALIDATE_SESSION;
     init := {| method := Some "POST";
                headers := <["User-Agent" := user_agent h]>
                           (<["Content-Type" := "application/json"]>
                           (<["Authorization" := "Bearer " +:+ accessToken]> ∅));
                body := Some (JSON_stringify [("session_id", sessionId);
                                              ("client_type", "vscode")]) |} |}.

(** The world after a refresh attempt whose error [detail] was caught. *)
Definition refresh_aborted (detail : string) (w : World) : World :=
  signed_out (emit (EConsoleError "Token refresh failed:" detail) w).

(** The store after [storeTokens tokens]. *)
Definition tokens_written (tokens : AuthTokens) (m : gmap string string) : gmap string string :=
  let m1 := <[TOKEN_KEYS.REFRESH_TOKEN := refresh_token tokens]>
            (<[TOKEN_KEYS.ACCESS_TOKEN := access_token tokens]> m) in
  let m2 := if present (session_id tokens)
            then <[TOKEN_KEYS.SESSION_ID := default "" (session_id tokens)]> m1
            else m1 in
  match organization_id tokens with
  | org_string id =>
      if truthy id then <[TOKEN_KEYS.ORGANIZATION_ID := id]> m2 else m2
  | org_null | org_undefined => m2
  end.

(** The world after [handleCallback] has caught [error]. *)
Definition callback_failed (error : string) (w : World) : World :=
  emit (EShowErrorMessage ("Authentication callback failed: " +:+ error))
    (emit (EConsoleError "Authentication callback failed:" error) w).

(** The world after [handleCallback] has stored [tokens] and cleaned up. *)
Definition callback_succeeded (state : string) (tokens : AuthTokens) (w : World) : World :=
  emit (EExecuteCommand "softcodes.onAuthenticated")
    (emit (EShowInformationMessage AUTH_SUCCESS.AUTHENTICATED)
       (set_pendingAuth (delete state)
          (set_secrets (delete (TOKEN_KEYS.PKCE_PREFIX +:+ state))
             (set_secrets (tokens_written tokens) w)))).

(** The message thrown for a token exchange answered outside 2xx. *)
Definition exchange_error (r : Response) : string :=
  or_else (match json r with
           | Some j => field_error j
           | None => Some AUTH_ERRORS.TOKEN_EXCHANGE_FAILED
           end) AUTH_ERRORS.TOKEN_EXCHANGE_FAILED.

(** ** Sample worlds *)

Module Samples.
Definition production : Host :=
  {| config_backendUrl := None; NODE_ENV_development := false;
     extension_version := Some "1.0.0" |}.

Definition world (m : gmap string string) (net : list Exchange) : World :=
  {| host := production; secrets := m; pendingAuth := ∅; network := net; trace := [] |}.

(** A refresh response that omits the session and the organization. *)
Definition refreshed : AuthTokens :=
  {| access_token := "A2"; refresh_token := "R2";
     session_id := None; organization_id := org_undefined |}.

(** A payload that moves the user to a personal account. *)
Definition personal : AuthTokens :=
  {| access_token := "A2"; refresh_token := "R2";
     session_id := Some "S2"; organization_id := org_null |}.

(** A store of a signed-in member of organization [org-123]. *)
Definition signed_in : gmap string string :=
  <[TOKEN_KEYS.ORGANIZATION_ID := "org-123"]>
  (<[TOKEN_KEYS.SESSION_ID := "S"]>
  (<[TOKEN_KEYS.REFRESH_TOKEN := "R"]>
  (<[TOKEN_KEYS.ACCESS_TOKEN := "A"]> ∅))).

Definition answer (code : nat) (j : option Json) : Exchange :=
  {| outcome := responds {| status := code; json := j |}; meanwhile := [] |}.
End Samples.

(** More sample data: stores that hold a refresh token only. *)
Module RefreshSamples.
Definition expired : gmap string string :=
  <[TOKEN_KEYS.ORGANIZATION_ID := "org-123"]>
  (<[TOKEN_KEYS.SESSION_ID := "S"]>
  (<[TOKEN_KEYS.REFRESH_TOKEN := "R"]> ∅)).

Definition granted : Exchange :=
  Samples.answer 200 (Some (JTokens Samples.refreshed)).

Definition denied : Exchange :=
  Samples.answer 401 (Some (JError (Some "Token refresh failed") None)).
End RefreshSamples.

(** A callback for state [xyz] with its pending entry in both places. *)
Module CallbackSamples.
Definition uri : CallbackUri :=
  {| query_code := Some "abc"; query_state := Some "xyz" |}.

Definition entry : PendingEntry := {| codeVerifier := "v1"; entry_state := "xyz" |}.

Definition world (m : gmap string string) (net : list Exchange) : World :=
  {| host := Samples.production; secrets := m;
     pendingAuth := <["xyz" := entry]> ∅; network := net; trace := [] |}.

Definition pending : gmap string string := <["pkce_xyz" := "v1"]> ∅.

Definition issued : AuthTokens :=
  {| access_token := "A"; refresh_token := "R";
     session_id := Some "S"; organization_id := org_undefined |}.

Definition accepted : Exchange := Samples.answer 200 (Some (JTokens issued)).

Definition rejected : Exchange :=
  Samples.answer 400 (Some (JError (Some "Invalid authorization code") None)).
End CallbackSamples.

(** A client whose caller passes its own [Authorization] header, and
    scripts in which the stored access token changes while a request is
    pending. *)
Module ClientSamples.
Definition client : ApiClient := new_ApiClient Samples.production.

Definition options : RequestInit :=
  {| method := None;
     headers := <["Authorization" := "Bearer forged"]> (<["X-Trace" := "1"]> ∅);
     body := None |}.

Definition endpoint : string := "/api/vscode/user/balance".

Definition stored (token : string) : gmap string string :=
  <[TOKEN_KEYS.SESSION_ID := "S"]> (<[TOKEN_KEYS.ACCESS_TOKEN := token]> ∅).

(** A 401 during which another handler stores [token]. *)
Definition unauthorized_while_storing (token : string) : Exchange :=
  {| outcome := responds {| status := 401; json := None |};
     meanwhile := [(TOKEN_KEYS.ACCESS_TOKEN, Some token)] |}.

Definition unauthorized : Exchange := Samples.answer 401 None.

Definition balance : Exchange := Samples.answer 200 (Some (JData "42")).

Definition rotating : World :=
  Samples.world (stored "T1")
    [unauthorized_while_storing "T2"; unauthorized_while_storing "T3"; balance].

Definition stale : World := Samples.world (stored "T1") [unauthorized; balance].
End ClientSamples.

(** ** The accessors of the service *)

(** [isAuthenticated()]. *)
Definition isAuthenticated : M bool :=
  let* token := getAccessToken in
  ret (present token).

(** [getOrganizationId()]. *)
Definition getOrganizationId : M (option string) :=
  secrets_get TOKEN_KEYS.ORGANIZATION_ID.

(** [getSessionId()]. *)
Definition getSessionId : M (option string) :=
  secrets_get TOKEN_KEYS.SESSION_ID.

(** The request of [getUserInfo]. *)
Definition user_info_request (h : Host) (accessToken : string) : Request :=
  {| url := backend_url h +:+ AUTH_ENDPOINTS.USER_INFO;
     init := {| method := Some "GET";
                headers := <["User-Agent" := user_agent h]>
                           (<["Content-Type" := "application/json"]>
                           (<["Authorization" := "Bearer " +:+ accessToken]> ∅));
                body := None |} |}.

Section UserInfo.

(** [response.statusText], which the response record does not carry. *)
Variable statusText : Response → string.

(** [getUserInfo()]; the document is returned as decoded. *)
Definition getUserInfo : M (option Json) :=
  try_catch
    (let* sessionId := secrets_get TOKEN_KEYS.SESSION_ID in
     let* accessToken := getAccessToken in
     if negb (present accessToken) || negb (present sessionId) then ret None
     else
       let* backendUrl := getBackendUrl in
       let* userAgent := generateUserAgent in
       let* response := fetch {| url := backendUrl +:+ AUTH_ENDPOINTS.USER_INFO;
                                 init := {| method := Some "GET";
                                            headers :=
                                              <["User-Agent" := userAgent]>
                                              (<["Content-Type" := "application/json"]>
                                              (<["Authorization" := "Bearer " +:+ default "" accessToken]> ∅));
                                            body := None |} |} in
       if negb (ok response) then
         log (EConsoleWarn "Failed to fetch user info:" (statusText response)) ;;
         ret None
       else
         let* j := response_json response in
         ret (Some j))
    (fun error =>
       log (EConsoleError "Error fetching user info:" error) ;;
       ret None).

End UserInfo.

(** The exchanges of a script during which nobody else writes to the
    secret storage. *)
Definition quiet (net : list Exchange) : Prop :=
  Forall (fun x => meanwhile x = []) net.

(** ** The PKCE module *)

(** The alphabet of [buffer.toString('base64')]. *)
Definition base64_alphabet : string :=
  "ABCDEFGHIJKLMNOPQRSTUVWXYZabcdefghijklmnopqrstuvwxyz0123456789+/".

Definition base64_digit (sextet : nat) : Ascii.ascii :=
  default "="%char (String.get sextet base64_alphabet).

(** [buffer.toString('base64')]: three bytes give four digits; a last
    group of one or two bytes gives two or three digits and is padded with
    [=] to four characters. *)
Fixpoint Buffer_toString_base64 (buffer : list Byte.byte) : string :=
  match buffer with
  | [] => ""
  | [a] =>
      let a := Byte.to_nat a in
      String (base64_digit (a / 4))
        (String (base64_digit ((a mod 4) * 16)) "==")
  | [a; b] =>
      let a := Byte.to_nat a in
      let b := Byte.to_nat b in
      String (base64_digit (a / 4))
        (String (base64_digit ((a mod 4) * 16 + b / 16))
           (String (base64_digit ((b mod 16) * 4)) "="))
  | a :: b :: c :: rest =>
      let a := Byte.to_nat a in
      let b := Byte.to_nat b in
      let c := Byte.to_nat c in
      String (base64_digit (a / 4))
        (String (base64_digit ((a mod 4) * 16 + b / 16))
           (String (base64_digit ((b mod 16) * 4 + c / 64))
              (String (base64_digit (c mod 64)) (Buffer_toString_base64 rest))))
  end.

(** [s.replace(/c/g, replacement)] for a pattern that is one character. *)
Fixpoint replace_all (c : Ascii.ascii) (replacement : string) (s : string) : string :=
  match s with
  | EmptyString => EmptyString
  | String x s' =>
      if Ascii.eqb x c then replacement +:+ replace_all c replacement s'
      else String x (replace_all c replacement s')
  end.

(** [base64URLEncode(buffer)]. *)
Definition base64URLEncode (buffer : list Byte.byte) : string :=
  replace_all "="%char ""
    (replace_all "/"%char "_"
       (replace_all "+"%char "-" (Buffer_toString_base64 buffer))).

(** [crypto.randomBytes(size)]: the next [size] bytes of the entropy
    source. *)
Definition randomBytes (size : nat) (entropy : nat → Byte.byte) : list Byte.byte :=
  map entropy (seq 0 size).

(** [generateCodeVerifier()]. *)
Definition generateCodeVerifier (entropy : nat → Byte.byte) : string :=
  base64URLEncode (randomBytes 32 entropy).

(** [generateState()]. *)
Definition generateState (entropy : nat → Byte.byte) : string :=
  base64URLEncode (randomBytes 16 entropy).

(** [generateCodeChallenge(verifier)], over the digest function
    [crypto.createHash('sha256').update(verifier).digest()]. *)
Definition generateCodeChallenge (sha256 : string → list Byte.byte) (verifier : string)
    : string :=
  base64URLEncode (sha256 verifier).

(** The characters of an unpadded URL-safe base64 string. *)
Definition base64url_alphabet : string :=
  "ABCDEFGHIJKLMNOPQRSTUVWXYZabcdefghijklmnopqrstuvwxyz0123456789-_".

Definition base64url_digit (sextet : nat) : Ascii.ascii :=
  default "="%char (String.get sextet base64url_alphabet).

(** The position of a character in the URL-safe alphabet. *)
Fixpoint index_in (c : Ascii.ascii) (s : string) : nat :=
  match s with
  | EmptyString => 0
  | String x s' => if Ascii.eqb x c then 0 else S (index_in c s')
  end.

(** Letters, digits, [-] and [_]. *)
Definition url_safe (c : Ascii.ascii) : bool :=
  let n := Ascii.nat_of_ascii c in
  (Nat.leb 65 n && Nat.leb n 90) || (Nat.leb 97 n && Nat.leb n 122) ||
  (Nat.leb 48 n && Nat.leb n 57) || Nat.eqb n 45 || Nat.eqb n 95.

(** Every character of a string satisfies a test. *)
Fixpoint all_chars (p : Ascii.ascii → bool) (s : string) : bool :=
  match s with
  | EmptyString => true
  | String x s' => p x && all_chars p s'
  end.

(** ** Building the initiation URL *)

(** The literals of [OAUTH_CONFIG.WEBSITE.REDIRECT_URI_PATTERN],
    [/^https:\/\/(softcodes\.ai|localhost:3000)/]: the pattern matches a
    string that starts with one of them. *)
Definition WEBSITE_REDIRECT_URI_PATTERN : list string :=
  ["https://softcodes.ai"; "https://localhost:3000"].

(** [pattern.test(s)] for such a pattern. *)
Definition pattern_test (literals : list string) (s : string) : bool :=
  existsb (fun literal => String.prefix literal s) literals.

(** [isValidRedirectUri(redirectUri)]. *)
Definition isValidRedirectUri (redirectUri : string) : bool :=
  if decide (redirectUri = OAUTH_CONFIG.VSCODE_REDIRECT_URI) then true
  else pattern_test WEBSITE_REDIRECT_URI_PATTERN redirectUri.

(** The [application/x-www-form-urlencoded] serializer of
    [URLSearchParams]: letters, digits and [*-._] are kept, a space becomes
    [+], any other byte becomes [%] and two upper-case hexadecimal digits. *)
Definition urlencoded_keep (c : Ascii.ascii) : bool :=
  let n := Ascii.nat_of_ascii c in
  (Nat.leb 65 n && Nat.leb n 90) || (Nat.leb 97 n && Nat.leb n 122) ||
  (Nat.leb 48 n && Nat.leb n 57) ||
  Nat.eqb n 42 || Nat.eqb n 45 || Nat.eqb n 46 || Nat.eqb n 95.

Definition hex_digit (n : nat) : Ascii.ascii :=
  default "0"%char (String.get n "0123456789ABCDEF").

Definition urlencoded_byte (c : Ascii.ascii) : string :=
  if urlencoded_keep c then String c ""
  else if Ascii.eqb c " "%char then "+"
  else let n := Ascii.nat_of_ascii c in
       String "%"%char (String (hex_digit (n / 16)) (String (hex_digit (n mod 16)) "")).

Fixpoint urlencoded (s : string) : string :=
  match s with
  | EmptyString => EmptyString
  | String c s' => urlencoded_byte c +:+ urlencoded s'
  end.

Fixpoint urlencoded_serialize (entries : list (string * string)) : string :=
  match entries with
  | [] => ""
  | [(name, value)] => urlencoded name +:+ "=" +:+ urlencoded value
  | (name, value) :: rest =>
      urlencoded name +:+ "=" +:+ urlencoded value +:+ "&" +:+ urlencoded_serialize rest
  end.

(** [searchParams.set(name, value)]: the first entry of that name takes the
    value and the others of that name go; without one the entry is
    appended. *)
Fixpoint searchParams_set (name value : string) (entries : list (string * string))
    : list (string * string) :=
  match entries with
  | [] => [(name, value)]
  | (name', value') :: rest =>
      if decide (name' = name)
      then (name, value) :: filter (fun entry => entry.1 ≠ name) rest
      else (name', value') :: searchParams_set name value rest
  end.

Section Platform.

(** [new URL(path, base).href] for a path without query, [None] when the
    constructor throws. *)
Variable URL_href : string → string → option string.

(** The [auth_url] property of a document that is neither a token payload
    nor an error object. *)
Variable auth_url_of : string → option string.

(** [buildAuthUrl(baseUrl, params)], with the entries of [params] in
    order. *)
Definition buildAuthUrl (baseUrl : string) (params : list (string * string)) : M string :=
  match URL_href AUTH_ENDPOINTS.INITIATE_VSCODE_AUTH baseUrl with
  | None => throw "Invalid URL"
  | Some href =>
      let query := foldl (fun entries param => searchParams_set param.1 param.2 entries)
                     [] params in
      ret (match query with
           | [] => href
           | _ => href +:+ "?" +:+ urlencoded_serialize query
           end)
  end.

(** [data.auth_url]. *)
Definition field_auth_url (j : Json) : option string :=
  match j with
  | JData data => auth_url_of data
  | _ => None
  end.

End Platform.

(** ** Starting the flow *)

(** The host together with its external browser: the targets given to
    [vscode.env.openExternal], newest first.  Opening a target always
    succeeds. *)
Record Desktop := {
  world : World;
  opened : list string
}.

Definition MD (A : Type) : Type := Desktop → Result A * Desktop.

Definition lift {A} (m : M A) : MD A := fun d =>
  match m (world d) with
  | (r, w') => (r, {| world := w'; opened := opened d |})
  end.

Definition bindD {A B} (m : MD A) (k : A → MD B) : MD B := fun d =>
  match m d with
  | (Ok a, d') => k a d'
  | (Throw e, d') => (Throw e, d')
  | (OutOfFuel, d') => (OutOfFuel, d')
  end.

Definition try_catchD {A} (m : MD A) (handler : string → MD A) : MD A := fun d =>
  match m d with
  | (Ok a, d') => (Ok a, d')
  | (Throw e, d') => handler e d'
  | (OutOfFuel, d') => (OutOfFuel, d')
  end.

Declare Scope desktop_scope.
Delimit Scope desktop_scope with desktop.
Notation "'let*' x ':=' m 'in' k" := (bindD m (fun x => k))
  (at level 10, x name, m at level 100, k at level 200) : desktop_scope.
Notation "m ';;' k" := (bindD m (fun _ => k))
  (at level 100, k at level 200, right associativity) : desktop_scope.

(** [vscode.env.openExternal(vscode.Uri.parse(target))]. *)
Definition openExternal (target : string) : MD bool := fun d =>
  (Ok true, {| world := world d; opened := target :: opened d |}).

(** [pendingAuth.set(state, entry)]. *)
Definition pendingAuth_set (state : string) (entry : PendingEntry) : M unit := fun w =>
  (Ok tt, set_pendingAuth (insert state entry) w).

(** [authenticate()], with the two draws of the entropy source it makes. *)
Definition authenticate (URL_href : string → string → option string)
    (sha256 : string → list Byte.byte) (auth_url_of : string → option string)
    (verifierEntropy stateEntropy : nat → Byte.byte) : MD unit :=
  (try_catchD
     (let codeVerifier := generateCodeVerifier verifierEntropy in
      let codeChallenge := generateCodeChallenge sha256 codeVerifier in
      let state := generateState stateEntropy in
      lift (pendingAuth_set state {| codeVerifier := codeVerifier; entry_state := state |}) ;;
      lift (secrets_store (TOKEN_KEYS.PKCE_PREFIX +:+ state) codeVerifier) ;;
      let redirectUri := OAUTH_CONFIG.VSCODE_REDIRECT_URI in
      if negb (isValidRedirectUri redirectUri) then
        lift (throw "Invalid redirect URI configuration")
      else
        let* backendUrl := lift getBackendUrl in
        let* authUrl := lift (buildAuthUrl URL_href backendUrl
                                [("redirect_uri", redirectUri);
                                 ("code_challenge", codeChallenge);
                                 ("state", state)]) in
        let* userAgent := lift generateUserAgent in
        let* response := lift (fetch {| url := authUrl;
                                        init := {| method := Some "GET";
                                                   headers := service_headers userAgent;
                                                   body := None |} |}) in
        if negb (ok response) then
          let* errorData := lift (try_catch (response_json response)
                                    (fun _ => ret (JError (Some AUTH_ERRORS.NETWORK_ERROR) None))) in
          lift (throw (or_else (field_error errorData) AUTH_ERRORS.NETWORK_ERROR))
        else
          let* data := lift (response_json response) in
          if negb (present (field_auth_url auth_url_of data)) then
            lift (throw AUTH_ERRORS.INVALID_RESPONSE)
          else
            openExternal (default "" (field_auth_url auth_url_of data)) ;;
            lift (log (EShowInformationMessage
                         "Please complete authentication in your browser")))
     (fun error =>
        lift (log (EConsoleError "Authentication initiation failed:" error)) ;;
        lift (log (EShowErrorMessage ("Authentication failed: " +:+ error)))))%desktop.

(** The world after [authenticate] has caught [error]. *)
Definition authentication_failed (error : string) (w : World) : World :=
  emit (EShowErrorMessage ("Authentication failed: " +:+ error))
    (emit (EConsoleError "Authentication initiation failed:" error) w).

(** The message thrown for an initiation answered outside 2xx. *)
Definition initiation_error (r : Response) : string :=
  or_else (match json r with
           | Some j => field_error j
           | None => Some AUTH_ERRORS.NETWORK_ERROR
           end) AUTH_ERRORS.NETWORK_ERROR.

(** The request of [authenticate] for a resolved endpoint [href]. *)
Definition initiate_request (h : Host) (href codeChallenge state : string) : Request :=
  {| url := href +:+ "?" +:+
            urlencoded_serialize [("redirect_uri", OAUTH_CONFIG.VSCODE_REDIRECT_URI);
                                  ("code_challenge", codeChallenge);
                                  ("state", state)];
     init := {| method := Some "GET";
                headers := service_headers (user_agent h);
                body := None |} |}.

(** The world once [authenticate] has recorded its pending entry. *)
Definition pending_recorded (state verifier : string) (w : World) : World :=
  set_secrets (insert (TOKEN_KEYS.PKCE_PREFIX +:+ state) verifier)
    (set_pendingAuth (insert state {| codeVerifier := verifier; entry_state := state |}) w).

(** A stand-in platform for concrete runs of [authenticate]. *)
Module PlatformSamples.
Definition URL_href (path base : string) : option string := Some (base +:+ path).

Definition digest (s : string) : list Byte.byte := repeat Byte.xab 32.

Definition auth_url_of (data : string) : option string := Some data.

Definition entropy (n : nat) : Byte.byte := default Byte.x00 (Byte.of_nat (7 * n + 3)).

Definition entropy' (n : nat) : Byte.byte := default Byte.x00 (Byte.of_nat (11 * n + 5)).

Definition desktop (net : list Exchange) : Desktop :=
  {| world := Samples.world Samples.signed_in net; opened := [] |}.

Definition invited : Exchange :=
  Samples.answer 200 (Some (JData "https://clerk.softcodes.ai/auth?ticket=1")).

Definition callback : CallbackUri :=
  {| query_code := Some "abc"; query_state := Some (generateState entropy') |}.

Definition refresh_only : gmap string string := <[TOKEN_KEYS.REFRESH_TOKEN := "R"]> ∅.

Definition no_code : CallbackUri := {| query_code := None; query_state := Some "xyz" |}.
End PlatformSamples.

(** ** Header names on the wire *)

(** Header names are matched ignoring the case of ASCII letters. *)
Definition lower_char (c : Ascii.ascii) : Ascii.ascii :=
  let n := Ascii.nat_of_ascii c in
  if Nat.leb 65 n && Nat.leb n 90 then Ascii.ascii_of_nat (n + 32) else c.

Fixpoint lower_case (s : string) : string :=
  match s with
  | EmptyString => EmptyString
  | String c s' => String (lower_char c) (lower_case s')
  end.

(** The values a request carries under a header name.  [fetch] fills the
    header list of the request with every entry of the headers object and
    matches names ignoring case, so entries whose keys differ only in case
    travel under the same name (the list is in no particular order). *)
Definition header_values (name : string) (h : gmap string string) : list string :=
  (map_to_list (filter (fun entry => lower_case entry.1 = lower_case name) h)).*2.

(** A caller that passes its own header under the name [authorization]. *)
Module HeaderSamples.
Definition options : RequestInit :=
  {| method := None;
     headers := <["authorization" := "Bearer forged"]> ∅;
     body := None |}.

Definition signed_in : World :=
  Samples.world (ClientSamples.stored "T1") [ClientSamples.balance].
End HeaderSamples.

(** The number of exchanges of a script during which another handler
    writes to the secret storage. *)
Fixpoint concurrent_writes (net : list Exchange) : nat :=
  match net with
  | [] => 0
  | x :: rest =>
      (match meanwhile x with [] => 0 | _ :: _ => 1 end) + concurrent_writes rest
  end.

(** ** Basic facts *)

Lemma truthy_nonempty s : truthy s = true ↔ s ≠ "".
Proof. unfold truthy. case_decide; split; congruence. Qed.

Lemma present_Some v : present v = true ↔ ∃ s, v = Some s ∧ s ≠ "".
Proof.
  destruct v as [s|]; simpl.
  - rewrite truthy_nonempty. split; [by eauto|].
    intros (s' & Hs & Hne). by inversion Hs; subst.
  - split; [done|]. intros (s' & Hs & _). discriminate.
Qed.

Lemma fetch_eq req w :
  fetch req w =
    (match outcome (next_exchange w) with
     | network_error msg => Throw msg
     | responds r => Ok r
     end, after_fetch req w).
Proof.
  destruct w as [h m p net tr].
  unfold fetch, after_fetch, next_exchange, emit; simpl.
  destruct net as [|x rest]; simpl; [done|].
  by destruct (outcome x).
Qed.


Lemma purge_absent m : credentials_absent (purge m).
Proof. unfold credentials_absent, purge. repeat split; by simplify_map_eq. Qed.

(** [signOut] in closed form: the session id is read after it has been
    deleted, so the notification branch is never taken. *)
Lemma signOut_eq w : signOut w = (Ok tt, signed_out w).
Proof.
  unfold signOut, try_catch, bind, secrets_delete, pendingAuth_clear, secrets_get, log,
    getBackendUrl, signed_out.
  simpl. fold (purge (secrets w)).
  destruct (purge_absent (secrets w)) as (_ & _ & -> & _). done.
Qed.

Lemma storeTokens_eq tokens w :
  storeTokens tokens w = (Ok tt, set_secrets (tokens_written tokens) w).
Proof.
  destruct w as [h m p net tr], tokens as [a r s o].
  unfold storeTokens, tokens_written, bind, secrets_store, ret, set_secrets; simpl.
  destruct (present s); simpl; destruct o as [| |id]; simpl; try done.
  all: by destruct (truthy id).
Qed.

Lemma tokens_written_access tokens m :
  tokens_written tokens m !! TOKEN_KEYS.ACCESS_TOKEN = Some (access_token tokens).
Proof.
  unfold tokens_written.
  destruct (present (session_id tokens)), (organization_id tokens) as [| |id];
    try destruct (truthy id); by simplify_map_eq.
Qed.

Lemma tokens_written_refresh tokens m :
  tokens_written tokens m !! TOKEN_KEYS.REFRESH_TOKEN = Some (refresh_token tokens).
Proof.
  unfold tokens_written.
  destruct (present (session_id tokens)), (organization_id tokens) as [| |id];
    try destruct (truthy id); by simplify_map_eq.
Qed.

Lemma tokens_written_session tokens m :
  tokens_written tokens m !! TOKEN_KEYS.SESSION_ID =
    if present (session_id tokens) then session_id tokens
    else m !! TOKEN_KEYS.SESSION_ID.
Proof.
  unfold tokens_written.
  destruct (session_id tokens) as [s|] eqn:Hs; simpl;
    [destruct (truthy s)|]; destruct (organization_id tokens) as [| |id];
    try destruct (truthy id); by simplify_map_eq.
Qed.

Lemma tokens_written_organization tokens m :
  tokens_written tokens m !! TOKEN_KEYS.ORGANIZATION_ID =
    match organization_id tokens with
    | org_string id => if truthy id then Some id else m !! TOKEN_KEYS.ORGANIZATION_ID
    | org_null | org_undefined => m !! TOKEN_KEYS.ORGANIZATION_ID
    end.
Proof.
  unfold tokens_written.
  destruct (present (session_id tokens)), (organization_id tokens) as [| |id];
    try destruct (truthy id); by simplify_map_eq.
Qed.

Lemma tokens_written_other tokens m k :
  k ≠ TOKEN_KEYS.ACCESS_TOKEN → k ≠ TOKEN_KEYS.REFRESH_TOKEN →
  k ≠ TOKEN_KEYS.SESSION_ID → k ≠ TOKEN_KEYS.ORGANIZATION_ID →
  tokens_written tokens m !! k = m !! k.
Proof.
  intros. unfold tokens_written.
  destruct (present (session_id tokens)), (organization_id tokens) as [| |id];
    try destruct (truthy id); by rewrite ?lookup_insert_ne.
Qed.

(** ** Credential persistence *)

(** C7. [storeTokens] always writes the access and the refresh token; it
    writes the session id and the organization id only when the payload
    carries one (a non-empty string, which is how the code tests presence)
    and otherwise leaves the stored value as it was; no other key and no
    other part of the world changes.  In particular a payload without
    organization id keeps a previously stored organization id. *)
Theorem storeTokens_writes (tokens : AuthTokens) (w : World) :
  ∃ w', storeTokens tokens w = (Ok tt, w') ∧
    secrets w' !! TOKEN_KEYS.ACCESS_TOKEN = Some (access_token tokens) ∧
    secrets w' !! TOKEN_KEYS.REFRESH_TOKEN = Some (refresh_token tokens) ∧
    secrets w' !! TOKEN_KEYS.SESSION_ID =
      (if present (session_id tokens) then session_id tokens
       else secrets w !! TOKEN_KEYS.SESSION_ID) ∧
    secrets w' !! TOKEN_KEYS.ORGANIZATION_ID =
      (match organization_id tokens with
       | org_string id =>
           if truthy id then Some id else secrets w !! TOKEN_KEYS.ORGANIZATION_ID
       | org_null | org_undefined => secrets w !! TOKEN_KEYS.ORGANIZATION_ID
       end) ∧
    (organization_id tokens = org_undefined →
     secrets w' !! TOKEN_KEYS.ORGANIZATION_ID = secrets w !! TOKEN_KEYS.ORGANIZATION_ID) ∧
    (∀ k, k ≠ TOKEN_KEYS.ACCESS_TOKEN → k ≠ TOKEN_KEYS.REFRESH_TOKEN →
          k ≠ TOKEN_KEYS.SESSION_ID → k ≠ TOKEN_KEYS.ORGANIZATION_ID →
          secrets w' !! k = secrets w !! k) ∧
    pendingAuth w' = pendingAuth w ∧ network w' = network w ∧ trace w' = trace w.
Proof.
  eexists. split; [apply storeTokens_eq|]. simpl.
  rewrite tokens_written_access, tokens_written_refresh,
    tokens_written_session, tokens_written_organization.
  repeat split; try done.
  - by intros ->.
  - intros. by apply tokens_written_other.
Qed.

Lemma storeTokens_writes_witness :
  let w' := (storeTokens Samples.refreshed (Samples.world Samples.signed_in [])).2 in
  secrets w' !! TOKEN_KEYS.ACCESS_TOKEN = Some "A2" ∧
  secrets w' !! TOKEN_KEYS.SESSION_ID = Some "S" ∧
  secrets w' !! TOKEN_KEYS.ORGANIZATION_ID = Some "org-123".
Proof.
  destruct (storeTokens_writes Samples.refreshed (Samples.world Samples.signed_in []))
    as (w' & -> & Ha & _ & Hs & _ & Ho & _).
  simpl. rewrite Ha, Hs, (Ho eq_refl). repeat split; reflexivity.
Defined.

(** C10. A payload whose organization id is [null] is stored exactly like
    one without organization id: the organization id already in the store
    stays, and it is [signOut] that removes it. *)
Theorem storeTokens_null_organization_kept (tokens : AuthTokens) (w : World) (id : string) :
  organization_id tokens = org_null →
  secrets w !! TOKEN_KEYS.ORGANIZATION_ID = Some id →
  ∃ w', storeTokens tokens w = (Ok tt, w') ∧
    storeTokens {| access_token := access_token tokens;
                   refresh_token := refresh_token tokens;
                   session_id := session_id tokens;
                   organization_id := org_undefined |} w = (Ok tt, w') ∧
    secrets w' !! TOKEN_KEYS.ORGANIZATION_ID = Some id ∧
    secrets (signOut w').2 !! TOKEN_KEYS.ORGANIZATION_ID = None.
Proof.
  intros Hnull Hid. eexists. split; [apply storeTokens_eq|].
  rewrite storeTokens_eq, signOut_eq. simpl.
  rewrite tokens_written_organization, Hnull. repeat split; try done.
  - do 2 f_equal. unfold tokens_written; simpl. by rewrite Hnull.
  - apply purge_absent.
Qed.

Lemma storeTokens_null_organization_kept_witness :
  let w := Samples.world Samples.signed_in [] in
  ∃ w', storeTokens Samples.personal w = (Ok tt, w') ∧
    secrets w' !! TOKEN_KEYS.ORGANIZATION_ID = Some "org-123" ∧
    secrets (signOut w').2 !! TOKEN_KEYS.ORGANIZATION_ID = None.
Proof.
  destruct (storeTokens_null_organization_kept Samples.personal
              (Samples.world Samples.signed_in []) "org-123" eq_refl eq_refl)
    as (w' & H1 & _ & H2 & H3).
  exists w'. repeat split; assumption.
Defined.

(** ** Sign-out *)

(** C2. [signOut] deletes the four credential keys before it reads the
    session id for the notification, so with a session id stored it still
    sends nothing: the only event is the confirmation message, the network
    script is untouched, and the credentials are gone. *)
Theorem signOut_never_notifies (w : World) (sessionId : string) :
  secrets w !! TOKEN_KEYS.SESSION_ID = Some sessionId →
  truthy sessionId = true →
  ∃ w', signOut w = (Ok tt, w') ∧
    trace w' = EShowInformationMessage AUTH_SUCCESS.SIGNED_OUT :: trace w ∧
    fetch_requests (trace w') = fetch_requests (trace w) ∧
    network w' = network w ∧
    credentials_absent (secrets w') ∧
    pendingAuth w' = ∅.
Proof.
  intros _ _. eexists. split; [apply signOut_eq|]. simpl.
  repeat split; try done; apply purge_absent.
Qed.

Lemma signOut_never_notifies_witness :
  ∃ w', signOut (Samples.world Samples.signed_in [Samples.answer 200 None]) = (Ok tt, w') ∧
    fetch_requests (trace w') = [] ∧
    network w' = [Samples.answer 200 None].
Proof.
  destruct (signOut_never_notifies
              (Samples.world Samples.signed_in [Samples.answer 200 None]) "S"
              eq_refl eq_refl) as (w' & H1 & _ & H2 & H3 & _).
  exists w'. repeat split; assumption.
Defined.

(** ** Token retrieval *)

(** [refreshAccessToken] in closed form, by the outcome of its fetch. *)
Lemma refreshAccessToken_eq refreshToken w :
  refreshAccessToken refreshToken w =
    let w1 := after_fetch (refresh_request (host w) refreshToken) w in
    match outcome (next_exchange w) with
    | network_error msg => (Ok None, refresh_aborted msg w1)
    | responds r =>
        if ok r then
          match json r with
          | Some (JTokens tokens) =>
              (Ok (Some (access_token tokens)), set_secrets (tokens_written tokens) w1)
          | Some _ => (Ok None, refresh_aborted "Invalid token payload" w1)
          | None => (Ok None, refresh_aborted SyntaxError w1)
          end
        else
          (Ok None,
           signed_out (emit (EConsoleWarn "Token refresh failed, clearing stored tokens" "") w1))
    end.
Proof.
  unfold refreshAccessToken, try_catch, bind, getBackendUrl, generateUserAgent.
  fold (refresh_request (host w) refreshToken).
  rewrite fetch_eq. simpl.
  destruct (outcome (next_exchange w)) as [msg|r]; simpl.
  - unfold log; simpl. by rewrite signOut_eq.
  - destruct (ok r); simpl.
    + unfold response_json. destruct (json r) as [[tokens|e m|d]|]; simpl;
        unfold log; simpl; rewrite ?storeTokens_eq, ?signOut_eq; done.
    + unfold log; simpl. by rewrite signOut_eq.
Qed.

(** [getAccessToken] by the three cases of the store. *)
Lemma getAccessToken_stored w :
  present (secrets w !! TOKEN_KEYS.ACCESS_TOKEN) = true →
  getAccessToken w = (Ok (secrets w !! TOKEN_KEYS.ACCESS_TOKEN), w).
Proof. intros H. unfold getAccessToken, bind, secrets_get. by rewrite H. Qed.

Lemma getAccessToken_refresh w refreshToken :
  present (secrets w !! TOKEN_KEYS.ACCESS_TOKEN) = false →
  secrets w !! TOKEN_KEYS.REFRESH_TOKEN = Some refreshToken →
  truthy refreshToken = true →
  getAccessToken w = refreshAccessToken refreshToken w.
Proof.
  intros Ha Hr Ht. unfold getAccessToken, bind, secrets_get.
  rewrite Ha. simpl. rewrite Hr. simpl. by rewrite Ht.
Qed.

Lemma getAccessToken_none w :
  present (secrets w !! TOKEN_KEYS.ACCESS_TOKEN) = false →
  present (secrets w !! TOKEN_KEYS.REFRESH_TOKEN) = false →
  getAccessToken w = (Ok (secrets w !! TOKEN_KEYS.ACCESS_TOKEN), w).
Proof.
  intros Ha Hr. unfold getAccessToken, bind, secrets_get.
  rewrite Ha. simpl. by rewrite Hr.
Qed.

(** [refreshAccessToken] never throws, and a token it returns is the
    access token of the store it leaves. *)
Lemma refreshAccessToken_result refreshToken w :
  ∃ token w', refreshAccessToken refreshToken w = (Ok token, w') ∧
    host w' = host w ∧ trace_extends w w' ∧
    (∀ t, token = Some t → secrets w' !! TOKEN_KEYS.ACCESS_TOKEN = Some t).
Proof.
  rewrite refreshAccessToken_eq. simpl.
  destruct (outcome (next_exchange w)) as [msg|r];
    [|destruct (ok r); [destruct (json r) as [[tokens|e m|d]|]|]];
    do 2 eexists; (split; [reflexivity|]); simpl; (split; [done|]);
    (split; [| try (intros t [= <-]; apply tokens_written_access); try done]).
  all: unfold trace_extends; simpl.
  all: try by eexists [_; _; _].
  by eexists [_].
Qed.

(** [getAccessToken] never throws; it does not touch the host, its trace
    only grows, and a usable token it returns is the one in the store. *)
Lemma getAccessToken_result w :
  ∃ token w', getAccessToken w = (Ok token, w') ∧
    host w' = host w ∧ trace_extends w w' ∧
    (present token = true → secrets w' !! TOKEN_KEYS.ACCESS_TOKEN = token).
Proof.
  destruct (present (secrets w !! TOKEN_KEYS.ACCESS_TOKEN)) eqn:Ha.
  - rewrite (getAccessToken_stored _ Ha). do 2 eexists. split; [done|].
    repeat split; try done. by exists [].
  - destruct (present (secrets w !! TOKEN_KEYS.REFRESH_TOKEN)) eqn:Hr.
    + apply present_Some in Hr as (r & Hr & Hne). apply truthy_nonempty in Hne.
      rewrite (getAccessToken_refresh _ _ Ha Hr Hne).
      destruct (refreshAccessToken_result r w) as (token & w' & -> & Hh & Ht & Hs).
      exists token, w'. repeat split; try done.
      destruct token as [t|]; [|done]. intros _. by apply Hs.
    + rewrite (getAccessToken_none _ Ha Hr). do 2 eexists. split; [done|].
      repeat split; try done. by exists [].
Qed.

(** Asking again right away returns the same usable token without any
    effect. *)
Lemma getAccessToken_again w token w' :
  getAccessToken w = (Ok token, w') → present token = true →
  getAccessToken w' = (Ok token, w').
Proof.
  intros Hget Hp.
  destruct (getAccessToken_result w) as (token' & w'' & Hget' & _ & _ & Hs).
  rewrite Hget in Hget'. injection Hget' as <- <-.
  specialize (Hs Hp). rewrite <- Hs in Hp.
  rewrite (getAccessToken_stored _ Hp). by rewrite Hs.
Qed.

(** C5. With no usable access token and a refresh token in the store,
    [getAccessToken] returns normally after exactly one network call, the
    POST of [{refresh_token, client_type: "vscode"}] to the refresh
    endpoint; when that call is answered with a 2xx status and a token
    payload, the payload is stored by [storeTokens] and its access token is
    returned. *)
Theorem getAccessToken_refresh_on_miss (w : World) (refreshToken : string) :
  present (secrets w !! TOKEN_KEYS.ACCESS_TOKEN) = false →
  secrets w !! TOKEN_KEYS.REFRESH_TOKEN = Some refreshToken →
  truthy refreshToken = true →
  let req := refresh_request (host w) refreshToken in
  ∃ token w' later,
    getAccessToken w = (Ok token, w') ∧
    trace w' = (later ++ trace w)%list ∧
    fetch_requests later = [req] ∧
    url req = backend_url (host w) +:+ "/api/auth/refresh-token" ∧
    method (init req) = Some "POST" ∧
    body (init req) = Some (JSON_stringify [("refresh_token", refreshToken);
                                            ("client_type", "vscode")]) ∧
    (∀ r tokens,
        outcome (next_exchange w) = responds r → ok r = true →
        json r = Some (JTokens tokens) →
        token = Some (access_token tokens) ∧
        storeTokens tokens (after_fetch req w) = (Ok tt, w') ∧
        secrets w' !! TOKEN_KEYS.ACCESS_TOKEN = Some (access_token tokens) ∧
        secrets w' !! TOKEN_KEYS.REFRESH_TOKEN = Some (refresh_token tokens)).
Proof.
  intros Ha Hr Ht req.
  rewrite (getAccessToken_refresh _ _ Ha Hr Ht), refreshAccessToken_eq. simpl.
  fold req.
  destruct (outcome (next_exchange w)) as [msg|r] eqn:Hout;
    [|destruct (ok r) eqn:Hok; [destruct (json r) as [[tokens|e m|d]|] eqn:Hj|]].
  all: do 2 eexists.
  1: exists [EShowInformationMessage AUTH_SUCCESS.SIGNED_OUT;
             EConsoleError "Token refresh failed:" msg; EFetch req (network_error msg)].
  2: exists [EFetch req (responds r)].
  3: exists [EShowInformationMessage AUTH_SUCCESS.SIGNED_OUT;
             EConsoleError "Token refresh failed:" "Invalid token payload";
             EFetch req (responds r)].
  4: exists [EShowInformationMessage AUTH_SUCCESS.SIGNED_OUT;
             EConsoleError "Token refresh failed:" "Invalid token payload";
             EFetch req (responds r)].
  5: exists [EShowInformationMessage AUTH_SUCCESS.SIGNED_OUT;
             EConsoleError "Token refresh failed:" SyntaxError; EFetch req (responds r)].
  6: exists [EShowInformationMessage AUTH_SUCCESS.SIGNED_OUT;
             EConsoleWarn "Token refresh failed, clearing stored tokens" "";
             EFetch req (responds r)].
  all: split; [reflexivity|]; simpl; rewrite ?Hout; repeat (split; [reflexivity|]).
  all: intros r' tokens' Hr' Hok' Hj'; try discriminate.
  all: injection Hr' as <-; try congruence.
  rewrite Hj in Hj'. injection Hj' as <-.
  rewrite storeTokens_eq. simpl.
  rewrite tokens_written_access, tokens_written_refresh. repeat split.
Qed.

Lemma getAccessToken_refresh_on_miss_witness :
  ∃ w', getAccessToken (Samples.world RefreshSamples.expired [RefreshSamples.granted])
          = (Ok (Some "A2"), w') ∧
        fetch_requests (trace w') = [refresh_request Samples.production "R"] ∧
        secrets w' !! TOKEN_KEYS.ACCESS_TOKEN = Some "A2" ∧
        secrets w' !! TOKEN_KEYS.REFRESH_TOKEN = Some "R2".
Proof.
  destruct (getAccessToken_refresh_on_miss
              (Samples.world RefreshSamples.expired [RefreshSamples.granted]) "R"
              eq_refl eq_refl eq_refl)
    as (token & w' & later & Hget & Htr & Hreq & _ & _ & _ & Hok).
  destruct (Hok _ Samples.refreshed eq_refl eq_refl eq_refl) as (-> & _ & Ha & Hr).
  exists w'. repeat split; try assumption.
  rewrite Htr. simpl. by rewrite app_nil_r.
Defined.

(** C6. A refresh attempt whose call fails, by a network error or by a
    status outside 2xx, returns no token and leaves none of the four
    credential keys in the store; [getAccessToken] that reached the refresh
    returns no token either. *)
Theorem refresh_failure_purges (w : World) (refreshToken : string) :
  failed (outcome (next_exchange w)) = true →
  ∃ w', refreshAccessToken refreshToken w = (Ok None, w') ∧
    credentials_absent (secrets w') ∧
    (present (secrets w !! TOKEN_KEYS.ACCESS_TOKEN) = false →
     secrets w !! TOKEN_KEYS.REFRESH_TOKEN = Some refreshToken →
     truthy refreshToken = true →
     getAccessToken w = (Ok None, w')).
Proof.
  intros Hfail. rewrite refreshAccessToken_eq. simpl.
  destruct (outcome (next_exchange w)) as [msg|r] eqn:Hout; simpl in Hfail.
  - eexists. split; [reflexivity|]. split; [apply purge_absent|].
    intros Ha Hr Ht.
    by rewrite (getAccessToken_refresh _ _ Ha Hr Ht), refreshAccessToken_eq, Hout.
  - apply negb_true_iff in Hfail. rewrite Hfail.
    eexists. split; [reflexivity|]. split; [apply purge_absent|].
    intros Ha Hr Ht.
    by rewrite (getAccessToken_refresh _ _ Ha Hr Ht), refreshAccessToken_eq, Hout, Hfail.
Qed.

Lemma refresh_failure_purges_witness :
  ∃ w', getAccessToken (Samples.world RefreshSamples.expired [RefreshSamples.denied])
          = (Ok None, w') ∧
        credentials_absent (secrets w').
Proof.
  destruct (refresh_failure_purges
              (Samples.world RefreshSamples.expired [RefreshSamples.denied]) "R" eq_refl)
    as (w' & _ & Habs & Hget).
  exists w'. split; [exact (Hget eq_refl eq_refl eq_refl)|exact Habs].
Defined.

(** ** The callback *)

(** [handleCallback] in closed form. *)
Lemma handleCallback_eq uri w :
  handleCallback uri w =
    (Ok tt,
     if negb (present (query_code uri)) || negb (present (query_state uri)) then
       callback_failed AUTH_ERRORS.MISSING_PARAMS w
     else
       let code := default "" (query_code uri) in
       let state := default "" (query_state uri) in
       let codeVerifier := secrets w !! (TOKEN_KEYS.PKCE_PREFIX +:+ state) in
       if negb (present codeVerifier) then callback_failed AUTH_ERRORS.INVALID_STATE w
       else
         let w1 := after_fetch
                     (exchange_request (host w) code (default "" codeVerifier) state) w in
         match outcome (next_exchange w) with
         | network_error msg => callback_failed msg w1
         | responds r =>
             if ok r then
               match json r with
               | Some (JTokens tokens) => callback_succeeded state tokens w1
               | Some _ => callback_failed "Invalid token payload" w1
               | None => callback_failed SyntaxError w1
               end
             else callback_failed (exchange_error r) w1
         end).
Proof.
  unfold handleCallback, try_catch, bind.
  destruct (negb (present (query_code uri)) || negb (present (query_state uri))); [done|].
  unfold secrets_get at 1. simpl.
  destruct (negb (present (secrets w !! _))); [done|].
  unfold getBackendUrl, generateUserAgent. simpl.
  match goal with |- context [fetch ?r w] =>
    change r with (exchange_request (host w) (default "" (query_code uri))
      (default "" (secrets w !! (TOKEN_KEYS.PKCE_PREFIX +:+ default "" (query_state uri))))
      (default "" (query_state uri))) end.
  rewrite fetch_eq.
  destruct (outcome (next_exchange w)) as [msg|r]; [done|]. simpl.
  destruct (ok r); simpl.
  - unfold response_json. destruct (json r) as [[tokens|e m|d]|]; simpl; try done.
    by rewrite storeTokens_eq.
  - unfold exchange_error, response_json.
    by destruct (json r) as [[tokens|e m|d]|].
Qed.

(** C4. A callback that carries a code and a state for which the durable
    store has no verifier is reported as "Invalid authentication state",
    whatever the code; and with or without a code, no request is sent and
    neither the store nor the network script changes. *)
Theorem handleCallback_unknown_state (uri : CallbackUri) (w : World) (state : string) :
  query_state uri = Some state →
  truthy state = true →
  present (secrets w !! (TOKEN_KEYS.PKCE_PREFIX +:+ state)) = false →
  ∃ w', handleCallback uri w = (Ok tt, w') ∧
    fetch_requests (trace w') = fetch_requests (trace w) ∧
    network w' = network w ∧
    secrets w' = secrets w ∧
    pendingAuth w' = pendingAuth w ∧
    (present (query_code uri) = true →
     trace w' =
       EShowErrorMessage ("Authentication callback failed: " +:+ AUTH_ERRORS.INVALID_STATE)
       :: EConsoleError "Authentication callback failed:" AUTH_ERRORS.INVALID_STATE
       :: trace w).
Proof.
  intros Hs Ht Habs. rewrite handleCallback_eq, Hs. simpl. rewrite Ht, Habs. simpl.
  destruct (present (query_code uri)); simpl; eexists; (split; [reflexivity|]);
    repeat split; done.
Qed.

Lemma handleCallback_unknown_state_witness :
  ∃ w', handleCallback CallbackSamples.uri
          (Samples.world Samples.signed_in [CallbackSamples.accepted]) = (Ok tt, w') ∧
    fetch_requests (trace w') = [] ∧
    trace w' =
      [EShowErrorMessage "Authentication callback failed: Invalid authentication state";
       EConsoleError "Authentication callback failed:" "Invalid authentication state"].
Proof.
  destruct (handleCallback_unknown_state CallbackSamples.uri
              (Samples.world Samples.signed_in [CallbackSamples.accepted]) "xyz"
              eq_refl eq_refl eq_refl) as (w' & H1 & H2 & _ & _ & _ & H3).
  exists w'. split; [exact H1|]. split; [exact H2|]. exact (H3 eq_refl).
Defined.

(** C1, as stated, fails: after a token exchange answered with a 400 the
    pending entry of the callback's state is still in the durable store and
    in the in-memory map. *)
Lemma handleCallback_failed_exchange_keeps_entry :
  let w := CallbackSamples.world CallbackSamples.pending [CallbackSamples.rejected] in
  let w' := (handleCallback CallbackSamples.uri w).2 in
  present (secrets w !! "pkce_xyz") = true ∧
  ¬ (secrets w' !! "pkce_xyz" = None ∧ pendingAuth w' !! "xyz" = None).
Proof.
  split; [reflexivity|]. intros [H _]. vm_compute in H. discriminate.
Qed.

(** C1, amended. For a callback with a code and a state whose verifier is
    in the durable store: when the token exchange is answered with a 2xx
    status and a token payload, the pending entry of that state is gone
    from the durable store and from the in-memory map afterwards; when the
    exchange fails (network error or a status outside 2xx) the handler
    deletes nothing, so the entry stays where it was. *)
Theorem handleCallback_pending_entry (uri : CallbackUri) (w : World)
    (code state verifier : string) :
  query_code uri = Some code → truthy code = true →
  query_state uri = Some state → truthy state = true →
  secrets w !! (TOKEN_KEYS.PKCE_PREFIX +:+ state) = Some verifier →
  truthy verifier = true →
  let req := exchange_request (host w) code verifier state in
  ∃ w', handleCallback uri w = (Ok tt, w') ∧
    fetch_requests (trace w') = (fetch_requests (trace w) ++ [req])%list ∧
    (∀ r tokens,
        outcome (next_exchange w) = responds r → ok r = true →
        json r = Some (JTokens tokens) →
        secrets w' !! (TOKEN_KEYS.PKCE_PREFIX +:+ state) = None ∧
        pendingAuth w' !! state = None) ∧
    (failed (outcome (next_exchange w)) = true →
     secrets w' = secrets (after_fetch req w) ∧
     pendingAuth w' = pendingAuth w ∧
     (meanwhile (next_exchange w) = [] →
      secrets w' !! (TOKEN_KEYS.PKCE_PREFIX +:+ state) = Some verifier)).
Proof.
  intros Hc Htc Hs Hts Hv Htv req.
  rewrite handleCallback_eq, Hc, Hs. simpl. rewrite Htc, Hts. simpl.
  rewrite Hv. simpl. rewrite Htv. simpl. fold req.
  destruct (outcome (next_exchange w)) as [msg|r] eqn:Hout;
    [|destruct (ok r) eqn:Hok; [destruct (json r) as [[tokens|e m|d]|] eqn:Hj|]].
  all: eexists; (split; [reflexivity|]); simpl; rewrite ?Hout; (split; [reflexivity|]).
  all: split; [intros r' tokens' Hr' Hok' Hj'; try discriminate;
               injection Hr' as <-; try congruence
              |intros Hfail; simpl in Hfail; rewrite ?Hok in Hfail; try discriminate].
  all: try (repeat split; try done; intros ->; simpl; exact Hv).
  split; [apply lookup_delete_eq|apply lookup_delete_eq].
Qed.

Lemma handleCallback_pending_entry_witness :
  (∃ w', handleCallback CallbackSamples.uri
           (CallbackSamples.world CallbackSamples.pending [CallbackSamples.accepted])
           = (Ok tt, w') ∧
         secrets w' !! "pkce_xyz" = None ∧ pendingAuth w' !! "xyz" = None) ∧
  (∃ w', handleCallback CallbackSamples.uri
           (CallbackSamples.world CallbackSamples.pending [CallbackSamples.rejected])
           = (Ok tt, w') ∧
         secrets w' !! "pkce_xyz" = Some "v1" ∧
         pendingAuth w' = <["xyz" := CallbackSamples.entry]> ∅).
Proof.
  split.
  - destruct (handleCallback_pending_entry CallbackSamples.uri
                (CallbackSamples.world CallbackSamples.pending [CallbackSamples.accepted])
                "abc" "xyz" "v1" eq_refl eq_refl eq_refl eq_refl eq_refl eq_refl)
      as (w' & H1 & _ & H2 & _).
    exists w'. split; [exact H1|].
    exact (H2 _ CallbackSamples.issued eq_refl eq_refl eq_refl).
  - destruct (handleCallback_pending_entry CallbackSamples.uri
                (CallbackSamples.world CallbackSamples.pending [CallbackSamples.rejected])
                "abc" "xyz" "v1" eq_refl eq_refl eq_refl eq_refl eq_refl eq_refl)
      as (w' & H1 & _ & _ & H2).
    destruct (H2 eq_refl) as (_ & H3 & H4).
    exists w'. split; [exact H1|]. split; [exact (H4 eq_refl)|exact H3].
Defined.

(** ** Session validation *)

Lemma validateSession_eq w token w1 :
  getAccessToken w = (Ok token, w1) →
  validateSession w =
    let sessionId := secrets w1 !! TOKEN_KEYS.SESSION_ID in
    if negb (present token) || negb (present sessionId) then (Ok false, w1)
    else
      let w2 := after_fetch (validate_request (host w1) (default "" token)
                               (default "" sessionId)) w1 in
      match outcome (next_exchange w1) with
      | network_error msg => (Ok false, emit (EConsoleError "Session validation failed:" msg) w2)
      | responds r => (Ok (ok r), w2)
      end.
Proof.
  intros Hget. unfold validateSession, try_catch, bind. rewrite Hget.
  unfold secrets_get at 1. simpl.
  destruct (negb (present token) || negb (present (secrets w1 !! _))); [done|].
  unfold getBackendUrl, generateUserAgent. simpl.
  match goal with |- context [fetch ?r w1] =>
    change r with (validate_request (host w1) (default "" token)
                     (default "" (secrets w1 !! TOKEN_KEYS.SESSION_ID))) end.
  rewrite fetch_eq. by destruct (outcome (next_exchange w1)).
Qed.

(** C9. [validateSession] always returns a boolean, never an exception.
    With [token] the result of the token retrieval and the session id read
    from the store right after it: if either is missing the answer is
    [false] and nothing is sent; otherwise the validate-session POST is
    sent, and the answer is [true] exactly when it is answered with a 2xx
    status, so a network error gives [false]. *)
Theorem validateSession_fail_closed (w : World) :
  ∃ token w1 valid w',
    getAccessToken w = (Ok token, w1) ∧
    validateSession w = (Ok valid, w') ∧
    let sessionId := secrets w1 !! TOKEN_KEYS.SESSION_ID in
    if present token && present sessionId then
      fetch_requests (trace w') =
        (fetch_requests (trace w1) ++
         [validate_request (host w) (default "" token) (default "" sessionId)])%list ∧
      (valid = true ↔ ∃ r, outcome (next_exchange w1) = responds r ∧ ok r = true) ∧
      (∀ msg, outcome (next_exchange w1) = network_error msg → valid = false)
    else valid = false ∧ w' = w1.
Proof.
  destruct (getAccessToken_result w) as (token & w1 & Hget & Hhost & _ & _).
  exists token, w1. rewrite (validateSession_eq _ _ _ Hget). simpl.
  destruct (present token); simpl; [|by do 2 eexists].
  destruct (present (secrets w1 !! TOKEN_KEYS.SESSION_ID)); simpl; [|by do 2 eexists].
  rewrite Hhost.
  destruct (outcome (next_exchange w1)) as [msg|r] eqn:Hout;
    do 2 eexists; (split; [exact Hget|]); (split; [reflexivity|]); simpl;
    rewrite ?Hout; (split; [reflexivity|]); split.
  - split; [done|]. by intros (r & ? & _).
  - done.
  - split; [by eauto|]. by intros (r' & [= <-] & ?).
  - done.
Qed.

Lemma validateSession_fail_closed_witness :
  ∃ w', validateSession (Samples.world Samples.signed_in [Samples.answer 204 None])
          = (Ok true, w').
Proof.
  destruct (validateSession_fail_closed
              (Samples.world Samples.signed_in [Samples.answer 204 None]))
    as (token & w1 & valid & w' & Hget & Hval & H).
  vm_compute in Hget. injection Hget as <- <-.
  destruct H as (_ & H & _).
  exists w'. rewrite Hval. f_equal. f_equal. apply H. by eexists.
Defined.

(** ** The authenticated API client *)

Lemma trace_extends_refl w : trace_extends w w.
Proof. by exists []. Qed.

Lemma trace_extends_trans w1 w2 w3 :
  trace_extends w1 w2 → trace_extends w2 w3 → trace_extends w1 w3.
Proof.
  intros [l1 H1] [l2 H2]. exists (l2 ++ l1)%list.
  by rewrite H2, H1, app_assoc.
Qed.

Lemma trace_extends_emit e w : trace_extends w (emit e w).
Proof. by exists [e]. Qed.

Lemma trace_extends_after_fetch req w : trace_extends w (after_fetch req w).
Proof. by exists [EFetch req (outcome (next_exchange w))]. Qed.

(** One round of [request], once the token is resolved. *)
Lemma request_round fuel client endpoint options w token w1 :
  getAccessToken w = (Ok (Some token), w1) →
  truthy token = true →
  request (S fuel) client endpoint options w =
    let w2 := after_fetch (api_request client endpoint options token) w1 in
    match outcome (next_exchange w1) with
    | network_error msg => (Throw msg, w2)
    | responds r =>
        if Nat.eqb (status r) 401 then
          match getAccessToken w2 with
          | (Ok newToken, w3) =>
              if present newToken && (if decide (newToken = Some token) then false else true)
              then request fuel client endpoint options w3
              else (Throw "Authentication required",
                    emit (EExecuteCommand "softcodes.authenticate") w3)
          | (Throw e, w3) => (Throw e, w3)
          | (OutOfFuel, w3) => (OutOfFuel, w3)
          end
        else if negb (ok r) then
          match json r with
          | Some j => (Throw (or_else (field_message j) "API request failed"), w2)
          | None => (Throw SyntaxError, w2)
          end
        else
          match json r with
          | Some j => (Ok j, w2)
          | None => (Throw SyntaxError, w2)
          end
    end.
Proof.
  intros Hget Ht. simpl. unfold bind at 1. rewrite Hget. simpl. rewrite Ht. simpl.
  unfold bind at 1. rewrite fetch_eq.
  destruct (outcome (next_exchange w1)) as [msg|r]; [done|]. simpl.
  destruct (Nat.eqb (status r) 401).
  - unfold bind at 1.
    destruct (getAccessToken (after_fetch _ w1)) as [[newToken| |] w3]; try done.
    by destruct (present newToken && _).
  - destruct (negb (ok r)); unfold bind, response_json; by destruct (json r).
Qed.

(** The trace of a [request] only grows. *)
Lemma request_trace_extends fuel client endpoint options w :
  trace_extends w (request fuel client endpoint options w).2.
Proof.
  revert w. induction fuel as [|fuel IH]; intros w; [apply trace_extends_refl|].
  destruct (getAccessToken_result w) as (token & w1 & Hget & _ & Hext & _).
  destruct (present token) eqn:Hp.
  - destruct token as [t|]; [|done]. simpl in Hp.
    rewrite (request_round _ _ _ _ _ _ _ Hget Hp). simpl.
    set (w2 := after_fetch _ w1).
    assert (trace_extends w w2) as Hw2
      by (eapply trace_extends_trans; [exact Hext|apply trace_extends_after_fetch]).
    destruct (outcome (next_exchange w1)) as [msg|r]; [done|].
    destruct (Nat.eqb (status r) 401).
    + destruct (getAccessToken_result w2) as (newToken & w3 & -> & _ & Hext3 & _).
      assert (trace_extends w w3) as Hw3 by (eapply trace_extends_trans; eassumption).
      destruct (present newToken && _).
      * eapply trace_extends_trans; [exact Hw3|apply IH].
      * simpl. eapply trace_extends_trans; [exact Hw3|apply trace_extends_emit].
    + destruct (negb (ok r)); by destruct (json r).
  - simpl. unfold bind at 1. rewrite Hget. simpl. by rewrite Hp.
Qed.

(** The first request of a round is the API call with the resolved token
    in its bearer header. *)
Lemma request_first_fetch fuel client endpoint options w token w1 :
  getAccessToken w = (Ok (Some token), w1) →
  truthy token = true →
  ∃ later,
    trace (request (S fuel) client endpoint options w).2 =
      (later ++ EFetch (api_request client endpoint options token)
                  (outcome (next_exchange w1)) :: trace w1)%list.
Proof.
  intros Hget Ht.
  assert (∀ w', trace_extends (after_fetch (api_request client endpoint options token) w1) w' →
    ∃ later, trace w' = (later ++ EFetch (api_request client endpoint options token)
                           (outcome (next_exchange w1)) :: trace w1)%list) as Hfrom.
  { intros w' [later ->]. by exists later. }
  rewrite (request_round _ _ _ _ _ _ _ Hget Ht). simpl.
  set (w2 := after_fetch _ w1) in *.
  destruct (outcome (next_exchange w1)) as [msg|r] eqn:Hout.
  { apply Hfrom, trace_extends_refl. }
  destruct (Nat.eqb (status r) 401).
  - destruct (getAccessToken_result w2) as (newToken & w3 & -> & _ & Hext3 & _).
    destruct (present newToken && _); apply Hfrom.
    + eapply trace_extends_trans; [exact Hext3|apply request_trace_extends].
    + simpl. eapply trace_extends_trans; [exact Hext3|apply trace_extends_emit].
  - destruct (negb (ok r)); destruct (json r); apply Hfrom, trace_extends_refl.
Qed.

Lemma api_request_authorization client endpoint options token :
  headers (init (api_request client endpoint options token)) !! "Authorization"
    = Some ("Bearer " +:+ token).
Proof. simpl. by rewrite lookup_insert_ne, lookup_insert_eq. Qed.

(** Without a write by another handler during the call, the token read
    after a 401 is the token just used: the retry branch is then never
    taken. *)
Lemma request_quiet_401_same_token client endpoint options w token w1 :
  getAccessToken w = (Ok (Some token), w1) →
  truthy token = true →
  meanwhile (next_exchange w1) = [] →
  let w2 := after_fetch (api_request client endpoint options token) w1 in
  getAccessToken w2 = (Ok (Some token), w2).
Proof.
  intros Hget Ht Hquiet w2.
  destruct (getAccessToken_result w) as (token' & w1' & Hget' & _ & _ & Hs).
  rewrite Hget in Hget'. injection Hget' as <- <-.
  specialize (Hs Ht).
  assert (secrets w2 !! TOKEN_KEYS.ACCESS_TOKEN = Some token) as Hs2
    by (subst w2; simpl; by rewrite Hquiet).
  rewrite getAccessToken_stored; rewrite Hs2; done.
Qed.

(** What is sent under the name [Authorization]: the bearer value always,
    and nothing else unless a caller key differs from it only in case. *)
Lemma header_values_authorization client endpoint options token :
  let req := api_request client endpoint options token in
  ("Bearer " +:+ token) ∈ header_values "Authorization" (headers (init req)) ∧
  ((∀ k, is_Some (headers options !! k) →
         lower_case k = lower_case "Authorization" → k = "Authorization") →
   header_values "Authorization" (headers (init req)) = ["Bearer " +:+ token]).
Proof.
  intros req. unfold header_values. split.
  - apply list_elem_of_fmap. exists ("Authorization", "Bearer " +:+ token).
    split; [done|]. apply elem_of_map_to_list, map_lookup_filter_Some.
    split; [apply api_request_authorization|done].
  - intros Hcase.
    assert (filter (fun entry : string * string =>
                      lower_case entry.1 = lower_case "Authorization")
              (headers (init req))
            = {[ "Authorization" := "Bearer " +:+ token ]}) as ->.
    { apply map_eq. intros k.
      destruct (decide (k = "Authorization")) as [->|Hk].
      - rewrite lookup_singleton_eq. apply map_lookup_filter_Some.
        split; [apply api_request_authorization|done].
      - rewrite lookup_singleton_ne by done. apply map_lookup_filter_None.
        right. intros x Hx HP. simpl in HP, Hx.
        destruct (decide (k = "Content-Type")) as [->|Hc]; [discriminate HP|].
        rewrite !lookup_insert_ne in Hx by done.
        apply Hk, Hcase; [by eexists|exact HP]. }
    by rewrite map_to_list_singleton.
Qed.

(** C8, as stated, fails: a caller that passes its header under the name
    [authorization] is not overridden.  The object given to [fetch] keeps
    that entry beside the bearer entry, so the request carries the caller's
    value under the Authorization header too. *)
Lemma request_caller_authorization_sent :
  ∃ req out,
    trace (request 1 ClientSamples.client ClientSamples.endpoint HeaderSamples.options
             HeaderSamples.signed_in).2 = [EFetch req out] ∧
    headers (init req) !! "authorization" = Some "Bearer forged" ∧
    "Bearer forged" ∈ header_values "Authorization" (headers (init req)) ∧
    header_values "Authorization" (headers (init req)) ≠ ["Bearer T1"].
Proof.
  exists (api_request ClientSamples.client ClientSamples.endpoint
            HeaderSamples.options "T1"), (outcome ClientSamples.balance).
  split; [reflexivity|]. split; [reflexivity|].
  assert (header_values "Authorization"
            (headers (init (api_request ClientSamples.client ClientSamples.endpoint
                              HeaderSamples.options "T1")))
          = ["Bearer T1"; "Bearer forged"] ∨
          header_values "Authorization"
            (headers (init (api_request ClientSamples.client ClientSamples.endpoint
                              HeaderSamples.options "T1")))
          = ["Bearer forged"; "Bearer T1"]) as Hvalues.
  { vm_compute. auto. }
  destruct Hvalues as [-> | ->]; split; try discriminate; set_solver.
Qed.

(** C8, amended. Whatever headers object the caller passes, the headers
    object that [request] gives to [fetch] has the key [Authorization] set
    to [Bearer <token>] with the token obtained from [getAccessToken], which
    overwrites a caller entry of exactly that key, and its other entries
    (except the content type) are the caller's.  The bearer value is always
    among the values sent under the Authorization header, and it is the only
    one when no caller key differs from [Authorization] only in the case of
    its letters; such a key is passed on like any other. *)
Theorem request_authorization_header (fuel : nat) (client : ApiClient) (endpoint : string)
    (options : RequestInit) (w : World) (token : string) (w1 : World) :
  getAccessToken w = (Ok (Some token), w1) →
  truthy token = true →
  let req := api_request client endpoint options token in
  (∃ later,
      trace (request (S fuel) client endpoint options w).2 =
        (later ++ EFetch req (outcome (next_exchange w1)) :: trace w1)%list) ∧
  headers (init req) !! "Authorization" = Some ("Bearer " +:+ token) ∧
  (∀ k, k ≠ "Authorization" → k ≠ "Content-Type" →
        headers (init req) !! k = headers options !! k) ∧
  ("Bearer " +:+ token) ∈ header_values "Authorization" (headers (init req)) ∧
  ((∀ k, is_Some (headers options !! k) →
         lower_case k = lower_case "Authorization" → k = "Authorization") →
   header_values "Authorization" (headers (init req)) = ["Bearer " +:+ token]).
Proof.
  intros Hget Ht req. split; [by apply request_first_fetch|].
  split; [apply api_request_authorization|].
  split; [|apply header_values_authorization].
  intros k Hk1 Hk2. subst req. simpl. by rewrite !lookup_insert_ne.
Qed.

Lemma request_authorization_header_witness :
  headers ClientSamples.options !! "Authorization" = Some "Bearer forged" ∧
  ∃ req out,
    trace (request 1 ClientSamples.client ClientSamples.endpoint ClientSamples.options
             (Samples.world (ClientSamples.stored "T1") [ClientSamples.balance])).2
      = [EFetch req out] ∧
    headers (init req) !! "Authorization" = Some "Bearer T1" ∧
    headers (init req) !! "X-Trace" = Some "1" ∧
    header_values "Authorization" (headers (init req)) = ["Bearer T1"].
Proof.
  split; [reflexivity|].
  destruct (request_authorization_header 0 ClientSamples.client ClientSamples.endpoint
              ClientSamples.options
              (Samples.world (ClientSamples.stored "T1") [ClientSamples.balance])
              "T1" _ eq_refl eq_refl) as (_ & Hauth & Hother & _ & Honly).
  do 2 eexists. split; [reflexivity|]. split; [exact Hauth|].
  split; [rewrite Hother; [reflexivity|discriminate|discriminate]|].
  apply Honly. intros k [v Hk] Hcase. simpl in Hk.
  destruct (decide (k = "Authorization")) as [->|Hne]; [done|].
  rewrite lookup_insert_ne in Hk by done.
  destruct (decide (k = "X-Trace")) as [->|Hne']; [discriminate Hcase|].
  by rewrite lookup_insert_ne in Hk by done.
Defined.

(** C3, as stated, fails: when the stored token changes during the first
    call and again during the retry, a second consecutive 401 is retried as
    well.  The run below sends the request three times, with three
    different tokens, and ends with the body of the third answer instead of
    a failure. *)
Lemma request_retries_after_second_401 :
  let run := request 3 ClientSamples.client ClientSamples.endpoint ClientSamples.options
               ClientSamples.rotating in
  let call := api_request ClientSamples.client ClientSamples.endpoint ClientSamples.options in
  fetch_requests (trace run.2) = [call "T1"; call "T2"; call "T3"] ∧
  run.1 = Ok (JData "42") ∧
  ¬ ((length (fetch_requests (trace run.2)) ≤ 2)%nat ∧ ∃ e, run.1 = Throw e).
Proof.
  split; [vm_compute; reflexivity|].
  split; [vm_compute; reflexivity|].
  intros [_ [e He]]. vm_compute in He. discriminate.
Qed.

(** C3, amended. For a request sent with [token] and answered 401, let
    [newToken] be what [getAccessToken] returns next.  If it is usable and
    differs from [token], the method calls itself again: the new round
    resolves [newToken] without any network call and sends the request with
    it, and a 401 on that round is handled in the same way again.  If it is
    unchanged or missing, the client triggers [softcodes.authenticate] and
    fails with "Authentication required", and nothing is sent after the
    token was requested again. *)
Theorem request_on_401 (fuel : nat) (client : ApiClient) (endpoint : string)
    (options : RequestInit) (w : World) (token : string) (w1 : World)
    (r : Response) (newToken : option string) (w3 : World) :
  getAccessToken w = (Ok (Some token), w1) →
  truthy token = true →
  outcome (next_exchange w1) = responds r →
  status r = 401 →
  getAccessToken (after_fetch (api_request client endpoint options token) w1)
    = (Ok newToken, w3) →
  (present newToken = true → newToken ≠ Some token →
     request (S (S fuel)) client endpoint options w
       = request (S fuel) client endpoint options w3 ∧
     getAccessToken w3 = (Ok newToken, w3) ∧
     ∃ later,
       trace (request (S fuel) client endpoint options w3).2 =
         (later ++ EFetch (api_request client endpoint options (default "" newToken))
                     (outcome (next_exchange w3)) :: trace w3)%list) ∧
  (present newToken = false ∨ newToken = Some token →
     request (S fuel) client endpoint options w
       = (Throw "Authentication required",
          emit (EExecuteCommand "softcodes.authenticate") w3)).
Proof.
  intros Hget Ht Hout Hst Hnew. split.
  - intros Hp Hne.
    rewrite (request_round _ _ _ _ _ _ _ Hget Ht). cbv zeta.
    rewrite Hout, Hst, Hnew, Hp. simpl Nat.eqb. cbv iota.
    destruct (decide (newToken = Some token)) as [|_]; [done|]. simpl andb. cbv iota.
    split; [reflexivity|].
    pose proof (getAccessToken_again _ _ _ Hnew Hp) as Hagain.
    split; [exact Hagain|].
    destruct newToken as [t|]; [|done]. simpl in Hp.
    by apply request_first_fetch.
  - intros Hsame.
    rewrite (request_round _ _ _ _ _ _ _ Hget Ht). cbv zeta.
    rewrite Hout, Hst, Hnew. simpl Nat.eqb. cbv iota.
    destruct Hsame as [->| ->]; [done|].
    rewrite andb_comm. by destruct (decide (Some token = Some token)).
Qed.

Lemma request_on_401_witness :
  (∃ w3, request 3 ClientSamples.client ClientSamples.endpoint ClientSamples.options
           ClientSamples.rotating
         = request 2 ClientSamples.client ClientSamples.endpoint ClientSamples.options w3 ∧
         getAccessToken w3 = (Ok (Some "T2"), w3)) ∧
  (∃ w3, request 1 ClientSamples.client ClientSamples.endpoint ClientSamples.options
           ClientSamples.stale
         = (Throw "Authentication required", w3) ∧
         fetch_requests (trace w3) =
           [api_request ClientSamples.client ClientSamples.endpoint
              ClientSamples.options "T1"] ∧
         network w3 = [ClientSamples.balance]).
Proof.
  split.
  - destruct (request_on_401 1 ClientSamples.client ClientSamples.endpoint
                ClientSamples.options ClientSamples.rotating "T1" _ _ (Some "T2") _
                eq_refl eq_refl eq_refl eq_refl eq_refl) as (Hretry & _).
    destruct (Hretry eq_refl) as (H1 & H2 & _); [discriminate|].
    eexists. split; [exact H1|exact H2].
  - destruct (request_on_401 0 ClientSamples.client ClientSamples.endpoint
                ClientSamples.options ClientSamples.stale "T1" _ _ (Some "T1") _
                eq_refl eq_refl eq_refl eq_refl eq_refl) as (_ & Hfail).
    eexists. split; [exact (Hfail (or_intror eq_refl))|]. split; reflexivity.
Defined.

(** * Further properties of the service and the client *)

(** ** Token retrieval and the store *)

Lemma purge_idempotent m : purge (purge m) = purge m.
Proof.
  apply map_eq. intros k. unfold purge.
  rewrite !lookup_delete. by repeat case_decide.
Qed.

Lemma pkce_key_not_credential state :
  TOKEN_KEYS.PKCE_PREFIX +:+ state ≠ TOKEN_KEYS.ACCESS_TOKEN ∧
  TOKEN_KEYS.PKCE_PREFIX +:+ state ≠ TOKEN_KEYS.REFRESH_TOKEN ∧
  TOKEN_KEYS.PKCE_PREFIX +:+ state ≠ TOKEN_KEYS.SESSION_ID ∧
  TOKEN_KEYS.PKCE_PREFIX +:+ state ≠ TOKEN_KEYS.ORGANIZATION_ID.
Proof. repeat split; intros H; discriminate H. Qed.

Lemma purge_lookup_pkce m state :
  purge m !! (TOKEN_KEYS.PKCE_PREFIX +:+ state) = m !! (TOKEN_KEYS.PKCE_PREFIX +:+ state).
Proof.
  destruct (pkce_key_not_credential state) as (Ha & Hr & Hs & Ho).
  unfold purge. by rewrite !lookup_delete_ne.
Qed.

(** What [getAccessToken] leaves behind: the host is untouched, the result
    is usable exactly when the store then holds a usable access token, which
    is then the result, and at most one exchange of the script is consumed. *)
Lemma getAccessToken_inv w :
  ∃ token w', getAccessToken w = (Ok token, w') ∧
    host w' = host w ∧
    present token = present (secrets w' !! TOKEN_KEYS.ACCESS_TOKEN) ∧
    (present token = true → secrets w' !! TOKEN_KEYS.ACCESS_TOKEN = token) ∧
    (network w' = network w ∨ network w' = tail (network w)).
Proof.
  destruct (present (secrets w !! TOKEN_KEYS.ACCESS_TOKEN)) eqn:Ha.
  - rewrite (getAccessToken_stored _ Ha). do 2 eexists. split; [done|].
    repeat split; auto.
  - destruct (present (secrets w !! TOKEN_KEYS.REFRESH_TOKEN)) eqn:Hr.
    + apply present_Some in Hr as (r & Hr & Hne). apply truthy_nonempty in Hne.
      rewrite (getAccessToken_refresh _ _ Ha Hr Hne), refreshAccessToken_eq. simpl.
      destruct (outcome (next_exchange w)) as [msg|resp];
        [|destruct (ok resp); [destruct (json resp) as [[tokens|e m|d]|]|]];
        do 2 eexists; (split; [reflexivity|]); simpl;
        rewrite ?tokens_written_access; repeat split; auto.
      all: try (destruct (purge_absent (apply_writes (meanwhile (next_exchange w))
                  (secrets w))) as (-> & _); done).
    + rewrite (getAccessToken_none _ Ha Hr). do 2 eexists. split; [done|].
      repeat split; auto.
Qed.

(** X1. [isAuthenticated] answers for the store it leaves: it never throws and
    returns [true] exactly when a usable access token is stored when it
    returns. *)
Theorem isAuthenticated_agrees_with_store (w : World) :
  ∃ w', isAuthenticated w
          = (Ok (present (secrets w' !! TOKEN_KEYS.ACCESS_TOKEN)), w').
Proof.
  destruct (getAccessToken_inv w) as (token & w' & Hget & _ & Hp & _).
  exists w'. unfold isAuthenticated, bind. rewrite Hget. simpl. by rewrite Hp.
Qed.

(** ** Sign-out and what follows it *)

(** X2. Signing out twice is the same as once for the store, the pending map
    and the network: the second call finds nothing to delete, sends nothing
    and only repeats the confirmation message. *)
Theorem signOut_idempotent (w : World) :
  ∃ w1 w2, signOut w = (Ok tt, w1) ∧ signOut w1 = (Ok tt, w2) ∧
    secrets w2 = secrets w1 ∧ pendingAuth w2 = pendingAuth w1 ∧
    network w2 = network w ∧
    trace w2 = EShowInformationMessage AUTH_SUCCESS.SIGNED_OUT :: trace w1.
Proof.
  do 2 eexists. split; [apply signOut_eq|]. split; [apply signOut_eq|]. simpl.
  by rewrite purge_idempotent.
Qed.

Lemma getUserInfo_eq statusText w token w1 :
  getAccessToken w = (Ok token, w1) →
  getUserInfo statusText w =
    let sessionId := secrets w !! TOKEN_KEYS.SESSION_ID in
    if negb (present token) || negb (present sessionId) then (Ok None, w1)
    else
      let w2 := after_fetch (user_info_request (host w1) (default "" token)) w1 in
      match outcome (next_exchange w1) with
      | network_error msg => (Ok None, emit (EConsoleError "Error fetching user info:" msg) w2)
      | responds r =>
          if ok r then
            match json r with
            | Some j => (Ok (Some j), w2)
            | None => (Ok None, emit (EConsoleError "Error fetching user info:" SyntaxError) w2)
            end
          else (Ok None, emit (EConsoleWarn "Failed to fetch user info:" (statusText r)) w2)
      end.
Proof.
  intros Hget. unfold getUserInfo, try_catch, bind.
  unfold secrets_get at 1. simpl. rewrite Hget. simpl.
  destruct (negb (present token) || negb (present (secrets w !! _))); [done|].
  unfold getBackendUrl, generateUserAgent. simpl.
  match goal with |- context [fetch ?r w1] =>
    change r with (user_info_request (host w1) (default "" token)) end.
  rewrite fetch_eq. destruct (outcome (next_exchange w1)) as [msg|r]; [done|]. simpl.
  destruct (ok r); simpl; [|done].
  unfold response_json. by destruct (json r).
Qed.

(** X3. Right after [signOut] every accessor reports a signed-out user and
    none of them touches the network: no token, no session, no
    organization, no user, an invalid session, and an API request that is
    refused before it is sent. *)
Theorem signed_out_accessors (statusText : Response → string) (w : World)
    (fuel : nat) (client : ApiClient) (endpoint : string) (options : RequestInit) :
  ∃ w', signOut w = (Ok tt, w') ∧
    getAccessToken w' = (Ok None, w') ∧
    isAuthenticated w' = (Ok false, w') ∧
    getSessionId w' = (Ok None, w') ∧
    getOrganizationId w' = (Ok None, w') ∧
    validateSession w' = (Ok false, w') ∧
    getUserInfo statusText w' = (Ok None, w') ∧
    request (S fuel) client endpoint options w' = (Throw "Not authenticated", w').
Proof.
  eexists. split; [apply signOut_eq|].
  set (w' := signed_out w).
  destruct (purge_absent (secrets w)) as (Ha & Hr & Hs & Ho).
  assert (getAccessToken w' = (Ok None, w')) as Hget.
  { rewrite getAccessToken_none; simpl; by rewrite ?Ha, ?Hr. }
  split; [exact Hget|].
  split; [unfold isAuthenticated, bind; by rewrite Hget|].
  split; [unfold getSessionId, secrets_get; simpl; by rewrite Hs|].
  split; [unfold getOrganizationId, secrets_get; simpl; by rewrite Ho|].
  split; [by rewrite (validateSession_eq _ _ _ Hget)|].
  split; [by rewrite (getUserInfo_eq _ _ _ _ Hget)|].
  simpl. unfold bind at 1. by rewrite Hget.
Qed.

(** X4. [signOut] clears the in-memory pending map but deletes only the four
    credential keys of the durable store: a verifier stored under
    [pkce_<state>] survives it, and a callback for that state arriving
    afterwards still sends the token exchange with that verifier. *)
Theorem signOut_keeps_durable_verifier (w : World) (uri : CallbackUri)
    (code state verifier : string) :
  query_code uri = Some code → truthy code = true →
  query_state uri = Some state → truthy state = true →
  secrets w !! (TOKEN_KEYS.PKCE_PREFIX +:+ state) = Some verifier →
  truthy verifier = true →
  ∃ w1 w2, signOut w = (Ok tt, w1) ∧
    pendingAuth w1 = ∅ ∧
    secrets w1 !! (TOKEN_KEYS.PKCE_PREFIX +:+ state) = Some verifier ∧
    handleCallback uri w1 = (Ok tt, w2) ∧
    fetch_requests (trace w2) =
      (fetch_requests (trace w) ++ [exchange_request (host w) code verifier state])%list.
Proof.
  intros Hc Htc Hs Hts Hv Htv.
  do 2 eexists. split; [apply signOut_eq|]. split; [done|].
  assert (secrets (signed_out w) !! (TOKEN_KEYS.PKCE_PREFIX +:+ state) = Some verifier)
    as Hv' by (simpl; by rewrite purge_lookup_pkce).
  split; [exact Hv'|].
  rewrite handleCallback_eq, Hc, Hs. simpl default. simpl negb.
  rewrite Htc, Hts. simpl orb. cbv iota. cbv zeta.
  rewrite Hv'. simpl present. rewrite Htv. simpl negb. cbv iota. simpl default.
  split; [reflexivity|].
  destruct (outcome (next_exchange (signed_out w))) as [msg|r];
    [|destruct (ok r); [destruct (json r) as [[tokens|e m|d]|]|]]; reflexivity.
Qed.

(** ** User information *)

(** X5. [getUserInfo] never throws.  It needs a usable token and the session
    id that was in the store when it was called; with both it sends the
    user-info GET with the bearer token and returns a document exactly when
    that call is answered with a 2xx status and a body that decodes;
    otherwise it returns nothing. *)
Theorem getUserInfo_fail_closed (statusText : Response → string) (w : World) :
  ∃ token w1 info w',
    getAccessToken w = (Ok token, w1) ∧
    getUserInfo statusText w = (Ok info, w') ∧
    if present token && present (secrets w !! TOKEN_KEYS.SESSION_ID) then
      fetch_requests (trace w') =
        (fetch_requests (trace w1) ++ [user_info_request (host w) (default "" token)])%list ∧
      headers (init (user_info_request (host w) (default "" token))) !! "Authorization"
        = Some ("Bearer " +:+ default "" token) ∧
      (∀ j, info = Some j ↔
            ∃ r, outcome (next_exchange w1) = responds r ∧ ok r = true ∧ json r = Some j)
    else info = None ∧ w' = w1.
Proof.
  destruct (getAccessToken_inv w) as (token & w1 & Hget & Hhost & _).
  exists token, w1. rewrite (getUserInfo_eq _ _ _ _ Hget). simpl.
  destruct (present token); simpl; [|by do 2 eexists].
  destruct (present (secrets w !! TOKEN_KEYS.SESSION_ID)); simpl; [|by do 2 eexists].
  rewrite Hhost.
  destruct (outcome (next_exchange w1)) as [msg|r] eqn:Hout;
    [|destruct (ok r) eqn:Hok; [destruct (json r) as [j0|] eqn:Hj|]];
    do 2 eexists; (split; [exact Hget|]); (split; [reflexivity|]); simpl;
    rewrite ?Hout; (split; [reflexivity|]); (split; [reflexivity|]); intros j; split.
  - discriminate.
  - intros (r' & Hr' & _). discriminate.
  - intros [= <-]. by exists r.
  - intros (r' & Hr' & Hok' & Hj'). congruence.
  - discriminate.
  - intros (r' & Hr' & Hok' & Hj'). congruence.
  - discriminate.
  - intros (r' & Hr' & Hok' & Hj'). congruence.
Qed.

(** X6. [getUserInfo] reads the session id before it retrieves the token,
    [validateSession] after.  On a store without session id whose refresh
    token is exchanged for a payload that carries one, [getUserInfo] makes
    the refresh call and then gives up without asking for the user, while
    [validateSession] goes on to the backend with the new session id. *)
Theorem getUserInfo_session_read_first (statusText : Response → string) (w : World)
    (refreshToken : string) (r : Response) (tokens : AuthTokens) (sessionId : string) :
  present (secrets w !! TOKEN_KEYS.ACCESS_TOKEN) = false →
  present (secrets w !! TOKEN_KEYS.SESSION_ID) = false →
  secrets w !! TOKEN_KEYS.REFRESH_TOKEN = Some refreshToken →
  truthy refreshToken = true →
  outcome (next_exchange w) = responds r → ok r = true →
  json r = Some (JTokens tokens) →
  truthy (access_token tokens) = true →
  session_id tokens = Some sessionId → truthy sessionId = true →
  ∃ w1 valid w2,
    getAccessToken w = (Ok (Some (access_token tokens)), w1) ∧
    secrets w1 !! TOKEN_KEYS.SESSION_ID = Some sessionId ∧
    getUserInfo statusText w = (Ok None, w1) ∧
    validateSession w = (Ok valid, w2) ∧
    fetch_requests (trace w2) =
      (fetch_requests (trace w1) ++
       [validate_request (host w) (access_token tokens) sessionId])%list.
Proof.
  intros Ha Hs Hr Htr Hout Hok Hj Hta Hsid Htsid.
  assert (getAccessToken w =
            (Ok (Some (access_token tokens)),
             set_secrets (tokens_written tokens)
               (after_fetch (refresh_request (host w) refreshToken) w))) as Hget.
  { rewrite (getAccessToken_refresh _ _ Ha Hr Htr), refreshAccessToken_eq. simpl.
    by rewrite Hout, Hok, Hj. }
  set (w1 := set_secrets _ _) in Hget.
  assert (secrets w1 !! TOKEN_KEYS.SESSION_ID = Some sessionId) as Hs1.
  { subst w1. simpl. rewrite tokens_written_session, Hsid. simpl. by rewrite Htsid. }
  assert (host w1 = host w) as Hh by done.
  clearbody w1.
  exists w1. rewrite (validateSession_eq _ _ _ Hget), (getUserInfo_eq _ _ _ _ Hget).
  simpl. rewrite Hta, Hs, Hs1, Hh. simpl. rewrite Htsid. simpl.
  destruct (outcome (next_exchange w1)) as [msg|r'];
    do 2 eexists; (split; [exact Hget|]); repeat split; reflexivity.
Qed.

(** ** From the callback to the accessors *)

(** X7. After a callback whose exchange is answered with a 2xx status and a
    token payload with a non-empty access token, the user is signed in:
    [getAccessToken] returns the payload's access token without any network
    call, [isAuthenticated] is true, and the session id and the organization
    id of the payload, when it carries them, are what the accessors return. *)
Theorem handleCallback_signs_in (uri : CallbackUri) (w : World)
    (code state verifier : string) (r : Response) (tokens : AuthTokens) :
  query_code uri = Some code → truthy code = true →
  query_state uri = Some state → truthy state = true →
  secrets w !! (TOKEN_KEYS.PKCE_PREFIX +:+ state) = Some verifier →
  truthy verifier = true →
  outcome (next_exchange w) = responds r → ok r = true →
  json r = Some (JTokens tokens) →
  truthy (access_token tokens) = true →
  ∃ w', handleCallback uri w = (Ok tt, w') ∧
    getAccessToken w' = (Ok (Some (access_token tokens)), w') ∧
    isAuthenticated w' = (Ok true, w') ∧
    (present (session_id tokens) = true →
     getSessionId w' = (Ok (session_id tokens), w')) ∧
    (∀ id, organization_id tokens = org_string id → truthy id = true →
     getOrganizationId w' = (Ok (Some id), w')).
Proof.
  intros Hc Htc Hs Hts Hv Htv Hout Hok Hj Hta.
  destruct (pkce_key_not_credential state) as (Hka & Hkr & Hks & Hko).
  rewrite handleCallback_eq, Hc, Hs. simpl. rewrite Htc, Hts. simpl.
  rewrite Hv. simpl. rewrite Htv. simpl. rewrite Hout, Hok, Hj.
  eexists. split; [reflexivity|].
  set (w' := callback_succeeded _ _ _).
  assert (secrets w' !! TOKEN_KEYS.ACCESS_TOKEN = Some (access_token tokens)) as Ha.
  { subst w'. simpl. rewrite lookup_delete_ne by done. apply tokens_written_access. }
  assert (getAccessToken w' = (Ok (Some (access_token tokens)), w')) as Hget.
  { rewrite getAccessToken_stored; rewrite Ha; [done|exact Hta]. }
  split; [exact Hget|].
  split; [unfold isAuthenticated, bind; rewrite Hget; simpl; by rewrite Hta|].
  split.
  - intros Hp. unfold getSessionId, secrets_get. do 2 f_equal. subst w'. simpl.
    rewrite lookup_delete_ne by done. by rewrite tokens_written_session, Hp.
  - intros id Ho Hid. unfold getOrganizationId, secrets_get. do 2 f_equal. subst w'. simpl.
    rewrite lookup_delete_ne by done. by rewrite tokens_written_organization, Ho, Hid.
Qed.

(** ** How often a request is retried *)

Lemma concurrent_writes_tail net :
  (concurrent_writes (tail net) ≤ concurrent_writes net)%nat.
Proof. destruct net as [|x rest]; simpl; lia. Qed.

Lemma getAccessToken_concurrent_writes w token w' :
  getAccessToken w = (Ok token, w') →
  (concurrent_writes (network w') ≤ concurrent_writes (network w))%nat.
Proof.
  intros Hget.
  destruct (getAccessToken_inv w) as (token' & w'' & Hget' & _ & _ & _ & Hnet).
  rewrite Hget in Hget'. injection Hget' as <- <-.
  destruct Hnet as [-> | ->]; [done|apply concurrent_writes_tail].
Qed.

(** A call during which somebody else wrote to the store uses up one of
    the concurrent writes of the script. *)
Lemma after_fetch_concurrent_writes req w :
  meanwhile (next_exchange w) ≠ [] →
  (concurrent_writes (network (after_fetch req w)) < concurrent_writes (network w))%nat.
Proof.
  unfold next_exchange. destruct (network w) as [|x rest] eqn:Hnet; simpl.
  - done.
  - intros Hne. rewrite Hnet. simpl. destruct (meanwhile x); [done|lia].
Qed.

(** A retry happens only after a call during which the store was written
    by somebody else. *)
Lemma request_retry_needs_write client endpoint options w token w1 newToken w3 :
  getAccessToken w = (Ok (Some token), w1) →
  truthy token = true →
  getAccessToken (after_fetch (api_request client endpoint options token) w1)
    = (Ok newToken, w3) →
  present newToken && (if decide (newToken = Some token) then false else true) = true →
  meanwhile (next_exchange w1) ≠ [].
Proof.
  intros Hget Ht Hget3 Hretry Hquiet.
  pose proof (request_quiet_401_same_token client endpoint options _ _ _ Hget Ht Hquiet)
    as Hsame. cbv zeta in Hsame.
  rewrite Hsame in Hget3. injection Hget3 as <- _.
  rewrite andb_comm in Hretry. by destruct (decide (Some token = Some token)).
Qed.

(** With more rounds allowed than the script has concurrent writes,
    [request] does not depend on the number of rounds allowed and never
    stops for lack of them. *)
Lemma request_rounds_suffice client endpoint options fuel :
  ∀ w, (concurrent_writes (network w) < fuel)%nat →
    (request fuel client endpoint options w).1 ≠ OutOfFuel ∧
    ∀ fuel', (concurrent_writes (network w) < fuel')%nat →
      request fuel' client endpoint options w = request fuel client endpoint options w.
Proof.
  induction fuel as [|fuel IH]; intros w Hlen; [lia|].
  destruct (getAccessToken_inv w) as (token & w1 & Hget & _ & _ & _ & _).
  pose proof (getAccessToken_concurrent_writes _ _ _ Hget) as Hlen1.
  destruct (present token) eqn:Hp.
  - destruct token as [t|]; [|done]. simpl in Hp.
    set (w2 := after_fetch (api_request client endpoint options t) w1).
    destruct (getAccessToken_inv w2) as (newToken & w3 & Hget3 & _).
    pose proof (getAccessToken_concurrent_writes _ _ _ Hget3) as Hlen3.
    assert (present newToken && (if decide (newToken = Some t) then false else true) = true →
            (concurrent_writes (network w3) < fuel)%nat) as Hless.
    { intros Hretry.
      pose proof (request_retry_needs_write _ _ _ _ _ _ _ _ Hget Hp Hget3 Hretry) as Hwrite.
      pose proof (after_fetch_concurrent_writes
                    (api_request client endpoint options t) _ Hwrite) as Hlen2.
      fold w2 in Hlen2. lia. }
    split.
    + rewrite (request_round _ _ _ _ _ _ _ Hget Hp). cbv zeta. fold w2.
      destruct (outcome (next_exchange w1)) as [msg|r]; [done|].
      destruct (Nat.eqb (status r) 401).
      * rewrite Hget3.
        destruct (present newToken && _) eqn:Hretry; [|done].
        apply IH. by apply Hless.
      * destruct (negb (ok r)); by destruct (json r).
    + intros [|fuel'] Hlen'; [lia|].
      rewrite !(request_round _ _ _ _ _ _ _ Hget Hp). cbv zeta. fold w2.
      destruct (outcome (next_exchange w1)) as [msg|r]; [done|].
      destruct (Nat.eqb (status r) 401); [|done].
      rewrite Hget3.
      destruct (present newToken && _) eqn:Hretry; [|done].
      specialize (Hless eq_refl).
      assert (concurrent_writes (network w3) < fuel')%nat as Hless'.
      { pose proof (request_retry_needs_write _ _ _ _ _ _ _ _ Hget Hp Hget3 Hretry)
          as Hwrite.
        pose proof (after_fetch_concurrent_writes
                      (api_request client endpoint options t) _ Hwrite) as Hlen2.
        fold w2 in Hlen2. lia. }
      by apply IH.
  - assert (∀ f, request (S f) client endpoint options w = (Throw "Not authenticated", w1))
      as Hno.
    { intros f. simpl. unfold bind at 1. rewrite Hget. simpl. by rewrite Hp. }
    split; [by rewrite Hno|].
    intros [|fuel'] Hlen'; [lia|]. by rewrite !Hno.
Qed.

(** X8. [request] calls itself again only after a 401 during which another
    handler wrote to the secret storage (otherwise the token it asks for
    again is the one it just used), so one call makes at most one round more
    than there are such writes: allowed that many rounds it returns or
    throws, and allowing more does not change its outcome. *)
Theorem request_retries_bounded_by_writes (client : ApiClient) (endpoint : string)
    (options : RequestInit) (w : World) (fuel : nat) :
  (concurrent_writes (network w) < fuel)%nat →
  (request fuel client endpoint options w).1 ≠ OutOfFuel ∧
  request fuel client endpoint options w
    = request (S (concurrent_writes (network w))) client endpoint options w.
Proof.
  intros Hlen.
  destruct (request_rounds_suffice client endpoint options _ w (Nat.lt_succ_diag_r _))
    as (Hres & Hsame).
  rewrite (Hsame fuel Hlen). done.
Qed.

Lemma quiet_tail net : quiet net → quiet (tail net).
Proof. unfold quiet. destruct net; [done|]. by inversion 1. Qed.

Lemma quiet_next_exchange w : quiet (network w) → meanwhile (next_exchange w) = [].
Proof.
  unfold quiet, next_exchange. destruct (network w); [done|]. by inversion 1.
Qed.

(** X9. When nobody else writes to the secret storage while a request is
    pending, a 401 is never retried: the token asked for again is the one
    still in the store, so the client triggers re-authentication and fails
    with "Authentication required" after a single API call.  One round of
    [request] is then all there is. *)
Theorem request_quiet_network (fuel : nat) (client : ApiClient) (endpoint : string)
    (options : RequestInit) (w : World) :
  quiet (network w) →
  request (S fuel) client endpoint options w = request 1 client endpoint options w ∧
  (∀ token w1 r,
      getAccessToken w = (Ok (Some token), w1) → truthy token = true →
      outcome (next_exchange w1) = responds r → status r = 401 →
      request (S fuel) client endpoint options w =
        (Throw "Authentication required",
         emit (EExecuteCommand "softcodes.authenticate")
           (after_fetch (api_request client endpoint options token) w1))).
Proof.
  intros Hquiet.
  assert (∀ f token w1 r,
      getAccessToken w = (Ok (Some token), w1) → truthy token = true →
      outcome (next_exchange w1) = responds r → status r = 401 →
      request (S f) client endpoint options w =
        (Throw "Authentication required",
         emit (EExecuteCommand "softcodes.authenticate")
           (after_fetch (api_request client endpoint options token) w1))) as H401.
  { intros f token w1 r Hget Ht Hout Hst.
    assert (quiet (network w1)) as Hq1.
    { destruct (getAccessToken_inv w) as (token' & w1' & Hget' & _ & _ & _ & Hnet).
      rewrite Hget in Hget'. injection Hget' as <- <-.
      destruct Hnet as [-> | ->]; [done|by apply quiet_tail]. }
    pose proof (request_quiet_401_same_token client endpoint options _ _ _ Hget Ht
                  (quiet_next_exchange _ Hq1)) as Hsame. cbv zeta in Hsame.
    rewrite (request_round _ _ _ _ _ _ _ Hget Ht). cbv zeta.
    rewrite Hout, Hst, Hsame. simpl Nat.eqb. cbv iota.
    rewrite andb_comm. by destruct (decide (Some token = Some token)). }
  split; [|by apply H401].
  destruct (getAccessToken_inv w) as (token & w1 & Hget & _).
  destruct (present token) eqn:Hp.
  - destruct token as [t|]; [|done]. simpl in Hp.
    destruct (outcome (next_exchange w1)) as [msg|r] eqn:Hout.
    + rewrite !(request_round _ _ _ _ _ _ _ Hget Hp). cbv zeta. by rewrite Hout.
    + destruct (Nat.eqb (status r) 401) eqn:Hst.
      * apply Nat.eqb_eq in Hst.
        by rewrite !(H401 _ _ _ _ Hget Hp Hout Hst).
      * rewrite !(request_round _ _ _ _ _ _ _ Hget Hp). cbv zeta. by rewrite Hout, Hst.
  - assert (∀ f, request (S f) client endpoint options w = (Throw "Not authenticated", w1))
      as Hno.
    { intros f. simpl. unfold bind at 1. rewrite Hget. simpl. by rewrite Hp. }
    by rewrite !Hno.
Qed.

(** ** The PKCE encoding *)

Lemma list_ind3 {A} (P : list A → Prop) :
  P [] → (∀ a, P [a]) → (∀ a b, P [a; b]) →
  (∀ a b c l, P l → P (a :: b :: c :: l)) →
  ∀ l, P l.
Proof.
  intros H0 H1 H2 H3 l.
  assert (P l ∧ (∀ a, P (a :: l)) ∧ (∀ a b, P (a :: b :: l))) as (? & _); [|done].
  induction l as [|x l (IH0 & IH1 & IH2)]; [by auto|].
  split; [apply IH1|]. split; [intros a; apply IH2|]. intros a b. by apply H3.
Qed.

(** The three replacements turn a base64 digit into the digit of the
    URL-safe alphabet and leave the rest of the string to be treated. *)
Lemma url_replace_digit n s :
  (n < 64)%nat →
  replace_all "="%char "" (replace_all "/"%char "_"
    (replace_all "+"%char "-" (String (base64_digit n) s)))
  = String (base64url_digit n)
      (replace_all "="%char "" (replace_all "/"%char "_" (replace_all "+"%char "-" s))).
Proof.
  intros Hn. do 64 (destruct n as [|n]; [reflexivity|]). lia.
Qed.

Lemma base64url_digit_index n :
  (n < 64)%nat → index_in (base64url_digit n) base64url_alphabet = n.
Proof.
  intros Hn. do 64 (destruct n as [|n]; [reflexivity|]). lia.
Qed.

Lemma base64url_digit_inj n m :
  (n < 64)%nat → (m < 64)%nat → base64url_digit n = base64url_digit m → n = m.
Proof.
  intros Hn Hm H.
  by rewrite <- (base64url_digit_index n Hn), <- (base64url_digit_index m Hm), H.
Qed.

Lemma base64url_digit_safe n : (n < 64)%nat → url_safe (base64url_digit n) = true.
Proof.
  intros Hn. do 64 (destruct n as [|n]; [reflexivity|]). lia.
Qed.

Lemma to_nat_inj a b : Byte.to_nat a = Byte.to_nat b → a = b.
Proof.
  intros H. pose proof (Byte.of_to_nat a) as Ha. rewrite H, Byte.of_to_nat in Ha.
  by injection Ha.
Qed.

(** [base64URLEncode] group by group. *)
Lemma base64URLEncode_nil : base64URLEncode [] = "".
Proof. reflexivity. Qed.

Lemma base64URLEncode_one a :
  base64URLEncode [a] =
    String (base64url_digit (Byte.to_nat a / 4))
      (String (base64url_digit ((Byte.to_nat a mod 4) * 16)) "").
Proof.
  pose proof (Byte.to_nat_bounded a).
  unfold base64URLEncode. cbn [Buffer_toString_base64].
  rewrite !url_replace_digit by lia. reflexivity.
Qed.

Lemma base64URLEncode_two a b :
  base64URLEncode [a; b] =
    String (base64url_digit (Byte.to_nat a / 4))
      (String (base64url_digit ((Byte.to_nat a mod 4) * 16 + Byte.to_nat b / 16))
         (String (base64url_digit ((Byte.to_nat b mod 16) * 4)) "")).
Proof.
  pose proof (Byte.to_nat_bounded a). pose proof (Byte.to_nat_bounded b).
  unfold base64URLEncode. cbn [Buffer_toString_base64].
  rewrite !url_replace_digit by lia. reflexivity.
Qed.

Lemma base64URLEncode_three a b c rest :
  base64URLEncode (a :: b :: c :: rest) =
    String (base64url_digit (Byte.to_nat a / 4))
      (String (base64url_digit ((Byte.to_nat a mod 4) * 16 + Byte.to_nat b / 16))
         (String (base64url_digit ((Byte.to_nat b mod 16) * 4 + Byte.to_nat c / 64))
            (String (base64url_digit (Byte.to_nat c mod 64)) (base64URLEncode rest)))).
Proof.
  pose proof (Byte.to_nat_bounded a). pose proof (Byte.to_nat_bounded b).
  pose proof (Byte.to_nat_bounded c).
  unfold base64URLEncode. cbn [Buffer_toString_base64].
  rewrite !url_replace_digit by lia. reflexivity.
Qed.

(** Alphabet and length of the encoding. *)
Lemma base64URLEncode_safe_length (buffer : list Byte.byte) :
  all_chars url_safe (base64URLEncode buffer) = true ∧
  String.length (base64URLEncode buffer) = ((4 * length buffer + 2) / 3)%nat.
Proof.
  induction buffer as [|a|a b|a b c rest [IHs IHl]] using list_ind3.
  - done.
  - pose proof (Byte.to_nat_bounded a).
    rewrite base64URLEncode_one. cbn [all_chars String.length].
    rewrite !base64url_digit_safe by lia. done.
  - pose proof (Byte.to_nat_bounded a). pose proof (Byte.to_nat_bounded b).
    rewrite base64URLEncode_two. cbn [all_chars String.length].
    rewrite !base64url_digit_safe by lia. done.
  - pose proof (Byte.to_nat_bounded a). pose proof (Byte.to_nat_bounded b).
    pose proof (Byte.to_nat_bounded c).
    rewrite base64URLEncode_three. cbn [all_chars String.length].
    rewrite !base64url_digit_safe by lia. rewrite IHs, IHl.
    split; [done|]. cbn [length]. lia.
Qed.

(** X10. [base64URLEncode] produces an unpadded URL-safe string: only letters,
    digits, [-] and [_] (so none of [+], [/] and [=]), four characters for
    every three bytes and two or three for a last group of one or two. *)
Theorem base64URLEncode_shape (buffer : list Byte.byte) :
  all_chars url_safe (base64URLEncode buffer) = true ∧
  String.length (base64URLEncode buffer) = ((4 * length buffer + 2) / 3)%nat.
Proof. apply base64URLEncode_safe_length. Qed.

Local Opaque Nat.div Nat.modulo.

(** X11. [base64URLEncode] loses nothing: different buffers give different
    strings, so two draws of the entropy source that differ give a different
    verifier or state. *)
Theorem base64URLEncode_injective (buffer1 buffer2 : list Byte.byte) :
  base64URLEncode buffer1 = base64URLEncode buffer2 → buffer1 = buffer2.
Proof.
  revert buffer2.
  induction buffer1 as [|a|a b|a b c rest IH] using list_ind3;
    intros [|a' [|b' [|c' rest']]];
    rewrite ?base64URLEncode_nil, ?base64URLEncode_one, ?base64URLEncode_two,
      ?base64URLEncode_three; intros Heq; try discriminate Heq; try done.
  all: pose proof (Byte.to_nat_bounded a) as Ba; pose proof (Byte.to_nat_bounded a') as Ba'.
  all: try (pose proof (Byte.to_nat_bounded b) as Bb;
            pose proof (Byte.to_nat_bounded b') as Bb').
  all: try (pose proof (Byte.to_nat_bounded c) as Bc;
            pose proof (Byte.to_nat_bounded c') as Bc').
  - injection Heq as H1 H2.
    apply base64url_digit_inj in H1; [|lia..]. apply base64url_digit_inj in H2; [|lia..].
    f_equal. apply to_nat_inj. lia.
  - injection Heq as H1 H2 H3.
    apply base64url_digit_inj in H1; [|lia..]. apply base64url_digit_inj in H2; [|lia..].
    apply base64url_digit_inj in H3; [|lia..].
    assert (Byte.to_nat a = Byte.to_nat a' ∧ Byte.to_nat b = Byte.to_nat b') as [Ha Hb] by lia.
    by rewrite (to_nat_inj _ _ Ha), (to_nat_inj _ _ Hb).
  - injection Heq as H1 H2 H3 H4 Hrest.
    apply base64url_digit_inj in H1; [|lia..]. apply base64url_digit_inj in H2; [|lia..].
    apply base64url_digit_inj in H3; [|lia..]. apply base64url_digit_inj in H4; [|lia..].
    assert (Byte.to_nat a = Byte.to_nat a' ∧ Byte.to_nat b = Byte.to_nat b' ∧
            Byte.to_nat c = Byte.to_nat c') as (Ha & Hb & Hc) by lia.
    by rewrite (to_nat_inj _ _ Ha), (to_nat_inj _ _ Hb), (to_nat_inj _ _ Hc), (IH _ Hrest).
Qed.

Local Transparent Nat.div Nat.modulo.

Lemma randomBytes_length size entropy : length (randomBytes size entropy) = size.
Proof. unfold randomBytes. by rewrite length_map, length_seq. Qed.

Lemma nonempty_truthy s : (0 < String.length s)%nat → truthy s = true.
Proof. destruct s; simpl; [lia|done]. Qed.

(** Shape of the generated parameters. *)
Lemma generated_shape (entropy : nat → Byte.byte)
    (sha256 : string → list Byte.byte) :
  let verifier := generateCodeVerifier entropy in
  let state := generateState entropy in
  String.length verifier = 43 ∧ all_chars url_safe verifier = true ∧
  String.length state = 22 ∧ all_chars url_safe state = true ∧
  all_chars url_safe (generateCodeChallenge sha256 verifier) = true ∧
  truthy verifier = true ∧ truthy state = true.
Proof.
  unfold generateCodeVerifier, generateState, generateCodeChallenge.
  destruct (base64URLEncode_safe_length (randomBytes 32 entropy)) as [Hvs Hvl].
  destruct (base64URLEncode_safe_length (randomBytes 16 entropy)) as [Hss Hsl].
  rewrite randomBytes_length in Hvl, Hsl.
  cbv zeta. rewrite Hvs, Hss, Hvl, Hsl.
  repeat split; try done.
  - apply base64URLEncode_safe_length.
  - apply nonempty_truthy. rewrite Hvl. simpl. lia.
  - apply nonempty_truthy. rewrite Hsl. simpl. lia.
Qed.

(** X12. Whatever the entropy source returns, the code verifier is a URL-safe
    string of 43 characters and the state one of 22, the challenge is
    URL-safe too, and verifier and state pass the presence tests of the
    callback handler. *)
Theorem generated_parameters_shape (entropy : nat → Byte.byte)
    (sha256 : string → list Byte.byte) :
  let verifier := generateCodeVerifier entropy in
  let state := generateState entropy in
  String.length verifier = 43 ∧ all_chars url_safe verifier = true ∧
  String.length state = 22 ∧ all_chars url_safe state = true ∧
  all_chars url_safe (generateCodeChallenge sha256 verifier) = true ∧
  truthy verifier = true ∧ truthy state = true.
Proof. apply generated_shape. Qed.

(** ** Starting the flow *)

Lemma vscode_redirect_uri_valid : isValidRedirectUri OAUTH_CONFIG.VSCODE_REDIRECT_URI = true.
Proof. reflexivity. Qed.

(** [authenticate] in closed form. *)
Lemma authenticate_eq URL_href sha256 auth_url_of verifierEntropy stateEntropy d :
  authenticate URL_href sha256 auth_url_of verifierEntropy stateEntropy d =
    let verifier := generateCodeVerifier verifierEntropy in
    let challenge := generateCodeChallenge sha256 verifier in
    let state := generateState stateEntropy in
    let w0 := pending_recorded state verifier (world d) in
    match URL_href AUTH_ENDPOINTS.INITIATE_VSCODE_AUTH (backend_url (host (world d))) with
    | None =>
        (Ok tt, {| world := authentication_failed "Invalid URL" w0; opened := opened d |})
    | Some href =>
        let w1 := after_fetch (initiate_request (host (world d)) href challenge state) w0 in
        match outcome (next_exchange w0) with
        | network_error msg =>
            (Ok tt, {| world := authentication_failed msg w1; opened := opened d |})
        | responds r =>
            if ok r then
              match json r with
              | None =>
                  (Ok tt, {| world := authentication_failed SyntaxError w1;
                             opened := opened d |})
              | Some data =>
                  if present (field_auth_url auth_url_of data) then
                    (Ok tt,
                     {| world := emit (EShowInformationMessage
                                         "Please complete authentication in your browser") w1;
                        opened := default "" (field_auth_url auth_url_of data) :: opened d |})
                  else
                    (Ok tt, {| world := authentication_failed AUTH_ERRORS.INVALID_RESPONSE w1;
                               opened := opened d |})
              end
            else
              (Ok tt, {| world := authentication_failed (initiation_error r) w1;
                         opened := opened d |})
        end
    end.
Proof.
  cbv zeta. unfold authenticate, try_catchD, bindD.
  unfold lift at 1 2. simpl.
  unfold lift at 1. unfold getBackendUrl. simpl.
  unfold lift at 1. unfold buildAuthUrl. simpl.
  destruct (URL_href _ _) as [href|]; simpl; [|done].
  unfold lift at 1. unfold generateUserAgent. simpl.
  unfold lift at 1.
  match goal with |- context [fetch ?r ?w] =>
    change r with (initiate_request (host (world d)) href
                     (generateCodeChallenge sha256 (generateCodeVerifier verifierEntropy))
                     (generateState stateEntropy));
    change w with (pending_recorded (generateState stateEntropy)
                     (generateCodeVerifier verifierEntropy) (world d)) end.
  rewrite fetch_eq.
  destruct (outcome (next_exchange _)) as [msg|r]; [done|]. simpl.
  destruct (ok r); simpl.
  - unfold lift at 1. unfold response_json. destruct (json r) as [data|]; simpl; [|done].
    by destruct (present (field_auth_url auth_url_of data)).
  - unfold lift at 1. unfold initiation_error, try_catch, response_json.
    by destruct (json r) as [j|].
Qed.

Lemma prefix_app p s : String.prefix p s = true ↔ ∃ rest, s = p +:+ rest.
Proof.
  revert s. induction p as [|c p IH]; intros s.
  - split; [|by destruct s]. intros _. by exists s.
  - destruct s as [|c' s]; simpl.
    + split; [done|]. intros (rest & H). discriminate H.
    + destruct (ascii_dec c c') as [->|Hne].
      * rewrite IH. split; intros (rest & H); exists rest; [by rewrite H|by injection H].
      * split; [done|]. intros (rest & H). by injection H as -> _.
Qed.

(** X13. A redirect URI is accepted exactly when it is the extension's own URI
    or starts with one of the two https origins of the website pattern; what
    follows the origin is not constrained. *)
Theorem isValidRedirectUri_accepts (redirectUri : string) :
  isValidRedirectUri redirectUri = true ↔
    redirectUri = "vscode-softcodes://auth/callback" ∨
    (∃ rest, redirectUri = "https://softcodes.ai" +:+ rest) ∨
    (∃ rest, redirectUri = "https://localhost:3000" +:+ rest).
Proof.
  unfold isValidRedirectUri, pattern_test, WEBSITE_REDIRECT_URI_PATTERN.
  cbn [existsb]. rewrite <- !prefix_app.
  case_decide as Heq.
  - split; [by left|done].
  - rewrite orb_false_r, orb_true_iff. split; [by right|].
    intros [H|H]; [by destruct Heq|done].
Qed.

Lemma url_safe_kept c : url_safe c = true → urlencoded_keep c = true.
Proof.
  unfold url_safe, urlencoded_keep. cbv zeta.
  generalize (nat_of_ascii c). intros n. lia.
Qed.

(** The serializer leaves a URL-safe string as it is. *)
Lemma urlencoded_url_safe s : all_chars url_safe s = true → urlencoded s = s.
Proof.
  induction s as [|c s IH]; simpl; [done|].
  intros [Hc Hs]%andb_prop. unfold urlencoded_byte.
  rewrite (url_safe_kept _ Hc). simpl. by rewrite IH.
Qed.

(** X14. [authenticate] never throws and sends one request whenever the
    endpoint URL can be built: a GET whose query carries the percent-encoded
    redirect URI and, untouched by the encoding, the code challenge and the
    state. *)
Theorem authenticate_initiation_url (URL_href : string → string → option string)
    (sha256 : string → list Byte.byte) (auth_url_of : string → option string)
    (verifierEntropy stateEntropy : nat → Byte.byte) (d : Desktop) (href : string) :
  URL_href "/api/auth/initiate-vscode-auth" (backend_url (host (world d))) = Some href →
  let challenge := generateCodeChallenge sha256 (generateCodeVerifier verifierEntropy) in
  let state := generateState stateEntropy in
  ∃ d' req,
    authenticate URL_href sha256 auth_url_of verifierEntropy stateEntropy d = (Ok tt, d') ∧
    fetch_requests (trace (world d')) = (fetch_requests (trace (world d)) ++ [req])%list ∧
    method (init req) = Some "GET" ∧
    url req =
      href +:+ "?redirect_uri=vscode-softcodes%3A%2F%2Fauth%2Fcallback&code_challenge="
           +:+ challenge +:+ "&state=" +:+ state.
Proof.
  intros Hhref challenge state.
  destruct (generated_shape stateEntropy sha256) as (_ & _ & _ & Hstate & _).
  destruct (generated_shape verifierEntropy sha256) as (_ & _ & _ & _ & Hch & _).
  fold state in Hstate. fold challenge in Hch.
  exists (authenticate URL_href sha256 auth_url_of verifierEntropy stateEntropy d).2,
         (initiate_request (host (world d)) href challenge state).
  rewrite authenticate_eq. cbv zeta.
  change AUTH_ENDPOINTS.INITIATE_VSCODE_AUTH with "/api/auth/initiate-vscode-auth".
  rewrite Hhref. fold challenge state.
  split; [|split; [|split; [reflexivity|]]].
  - destruct (outcome (next_exchange _)) as [msg|r]; [done|].
    destruct (ok r); [|done]. destruct (json r) as [data|]; [|done].
    by destruct (present (field_auth_url auth_url_of data)).
  - destruct (outcome (next_exchange _)) as [msg|r]; [reflexivity|].
    destruct (ok r); [|reflexivity].
    destruct (json r) as [data|]; [|reflexivity].
    destruct (present (field_auth_url auth_url_of data)); reflexivity.
  - unfold initiate_request. cbn [url urlencoded_serialize].
    rewrite (urlencoded_url_safe _ Hch), (urlencoded_url_safe _ Hstate).
    reflexivity.
Qed.

(** What [authenticate] leaves in the store and in the pending map. *)
Lemma authenticate_recorded (URL_href : string → string → option string)
    (sha256 : string → list Byte.byte) (auth_url_of : string → option string)
    (verifierEntropy stateEntropy : nat → Byte.byte) (d : Desktop) :
  meanwhile (next_exchange (world d)) = [] →
  let verifier := generateCodeVerifier verifierEntropy in
  let state := generateState stateEntropy in
  ∃ d',
    authenticate URL_href sha256 auth_url_of verifierEntropy stateEntropy d = (Ok tt, d') ∧
    pendingAuth (world d') =
      <[state := {| codeVerifier := verifier; entry_state := state |}]>
        (pendingAuth (world d)) ∧
    secrets (world d') =
      <[TOKEN_KEYS.PKCE_PREFIX +:+ state := verifier]> (secrets (world d)).
Proof.
  intros Hquiet verifier state.
  rewrite authenticate_eq. cbv zeta. fold verifier state.
  assert (meanwhile (next_exchange (pending_recorded state verifier (world d))) = [])
    as Hquiet' by exact Hquiet.
  destruct (URL_href _ _) as [href|]; [|by eexists].
  destruct (outcome (next_exchange _)) as [msg|r];
    [|destruct (ok r);
      [destruct (json r) as [data|];
       [destruct (present (field_auth_url auth_url_of data))|]|]];
    eexists; (split; [reflexivity|]); simpl; rewrite Hquiet'; done.
Qed.


(** X16. [authenticate] opens the browser when, and only when, the
    initiation is answered with a 2xx status and a document whose [auth_url]
    is a non-empty string: it then opens exactly that URL, once, and shows
    the invitation to complete the sign-in there, right after the request;
    in every other case nothing is opened and the user sees
    "Authentication failed: ..." with the reason. *)
Theorem authenticate_opens_browser (URL_href : string → string → option string)
    (sha256 : string → list Byte.byte) (auth_url_of : string → option string)
    (verifierEntropy stateEntropy : nat → Byte.byte) (d : Desktop) :
  ∃ d',
    authenticate URL_href sha256 auth_url_of verifierEntropy stateEntropy d = (Ok tt, d') ∧
    (∀ href r data target,
        URL_href AUTH_ENDPOINTS.INITIATE_VSCODE_AUTH (backend_url (host (world d)))
          = Some href →
        outcome (next_exchange (world d)) = responds r → ok r = true →
        json r = Some data → field_auth_url auth_url_of data = Some target →
        target ≠ "" →
        opened d' = target :: opened d ∧
        trace (world d') =
          EShowInformationMessage "Please complete authentication in your browser"
          :: EFetch (initiate_request (host (world d)) href
                       (generateCodeChallenge sha256 (generateCodeVerifier verifierEntropy))
                       (generateState stateEntropy))
               (responds r)
          :: trace (world d)) ∧
    ((∃ href r data target rest,
         URL_href AUTH_ENDPOINTS.INITIATE_VSCODE_AUTH (backend_url (host (world d)))
           = Some href ∧
         outcome (next_exchange (world d)) = responds r ∧ ok r = true ∧
         json r = Some data ∧ field_auth_url auth_url_of data = Some target ∧
         target ≠ "" ∧
         opened d' = target :: opened d ∧
         trace (world d') =
           EShowInformationMessage "Please complete authentication in your browser" :: rest)
     ∨
     (opened d' = opened d ∧
      ∃ error rest,
        trace (world d') =
          EShowErrorMessage ("Authentication failed: " +:+ error)
          :: EConsoleError "Authentication initiation failed:" error :: rest)).
Proof.
  rewrite authenticate_eq. cbv zeta.
  set (w0 := pending_recorded _ _ _).
  assert (next_exchange w0 = next_exchange (world d)) as Hnext by done.
  assert (trace w0 = trace (world d)) as Htrace by done.
  clearbody w0.
  destruct (URL_href _ _) as [href|] eqn:Hhref.
  2: { eexists. split; [reflexivity|]. split; [intros ? ? ? ? [=]|].
       right. split; [done|]. by do 2 eexists. }
  destruct (outcome (next_exchange w0)) as [msg|r] eqn:Hout;
    [|destruct (ok r) eqn:Hok;
      [destruct (json r) as [data|] eqn:Hj;
       [destruct (present (field_auth_url auth_url_of data)) eqn:Hp|]|]];
    eexists; (split; [reflexivity|]); rewrite <- Hnext, Hout; split.
  all: try (intros href' r' data' target' [= <-] Hr' Hok' Hj' Ht' Hne';
            try discriminate Hr'; injection Hr' as <-).
  all: try (right; split; [done|]; by do 2 eexists).
  - rewrite Hj in Hj'. injection Hj' as <-. rewrite Ht'. simpl.
    rewrite Hout, Htrace. done.
  - left. apply present_Some in Hp as (target & Htarget & Hne).
    exists href, r, data, target. eexists. rewrite Htarget. repeat split; done.
  - rewrite Hj in Hj'. injection Hj' as <-. rewrite Ht' in Hp. simpl in Hp.
    apply truthy_nonempty in Hne'. congruence.
  - congruence.
  - congruence.
Qed.

(** A callback whose state has a verifier in the durable store sends the
    token exchange with that verifier. *)
Lemma handleCallback_sends_exchange uri w code state verifier :
  query_code uri = Some code → truthy code = true →
  query_state uri = Some state → truthy state = true →
  secrets w !! (TOKEN_KEYS.PKCE_PREFIX +:+ state) = Some verifier →
  truthy verifier = true →
  ∃ w2, handleCallback uri w = (Ok tt, w2) ∧
    fetch_requests (trace w2) =
      (fetch_requests (trace w) ++ [exchange_request (host w) code verifier state])%list.
Proof.
  intros Hc Htc Hs Hts Hv Htv.
  rewrite handleCallback_eq, Hc, Hs. simpl default. simpl negb.
  rewrite Htc, Hts. simpl orb. cbv iota. cbv zeta.
  rewrite Hv. simpl present. rewrite Htv. simpl negb. cbv iota. simpl default.
  eexists. split; [reflexivity|].
  destruct (outcome (next_exchange w)) as [msg|r];
    [|destruct (ok r); [destruct (json r) as [[tokens|e m|d]|]|]]; reflexivity.
Qed.

(** X17. The verifier travels from [authenticate] to the token exchange: when
    the callback comes back with the state that [authenticate] generated
    (and nobody else wrote to the store meanwhile), [handleCallback] sends
    the exchange request with the verifier generated for that state, also
    after an initiation that failed. *)
Theorem authenticate_then_callback (URL_href : string → string → option string)
    (sha256 : string → list Byte.byte) (auth_url_of : string → option string)
    (verifierEntropy stateEntropy : nat → Byte.byte) (d : Desktop)
    (uri : CallbackUri) (code : string) :
  meanwhile (next_exchange (world d)) = [] →
  query_code uri = Some code → truthy code = true →
  query_state uri = Some (generateState stateEntropy) →
  ∃ d' w2,
    authenticate URL_href sha256 auth_url_of verifierEntropy stateEntropy d = (Ok tt, d') ∧
    handleCallback uri (world d') = (Ok tt, w2) ∧
    fetch_requests (trace w2) =
      (fetch_requests (trace (world d')) ++
       [exchange_request (host (world d)) code
          (generateCodeVerifier verifierEntropy) (generateState stateEntropy)])%list.
Proof.
  intros Hquiet Hc Htc Hs.
  destruct (authenticate_recorded URL_href sha256 auth_url_of
              verifierEntropy stateEntropy d Hquiet) as (d' & Hauth & _ & Hsec).
  destruct (generated_shape verifierEntropy sha256)
    as (_ & _ & _ & _ & _ & Htv & _).
  destruct (generated_shape stateEntropy sha256)
    as (_ & _ & _ & _ & _ & _ & Hts).
  assert (host (world d') = host (world d)) as Hhost.
  { rewrite authenticate_eq in Hauth. cbv zeta in Hauth.
    destruct (URL_href _ _) as [href|]; [|by injection Hauth as <-].
    destruct (outcome (next_exchange _)) as [msg|r]; [by injection Hauth as <-|].
    destruct (ok r); [|by injection Hauth as <-].
    destruct (json r) as [data|]; [|by injection Hauth as <-].
    destruct (present (field_auth_url auth_url_of data)); by injection Hauth as <-. }
  destruct (handleCallback_sends_exchange uri (world d') code (generateState stateEntropy)
              (generateCodeVerifier verifierEntropy) Hc Htc Hs Hts) as (w2 & Hcb & Hreq).
  { rewrite Hsec. apply lookup_insert_eq. }
  { exact Htv. }
  rewrite Hhost in Hreq. exists d', w2. split; [exact Hauth|]. split; [exact Hcb|exact Hreq].
Qed.

(** ** More on the callback and the store *)

(** X18. A callback without a code or without a state (missing or empty) is
    reported as "Missing authentication parameters" before the store is
    consulted: nothing is sent and nothing changes but the trace. *)
Theorem handleCallback_missing_params (uri : CallbackUri) (w : World) :
  present (query_code uri) = false ∨ present (query_state uri) = false →
  handleCallback uri w =
    (Ok tt,
     emit (EShowErrorMessage "Authentication callback failed: Missing authentication parameters")
       (emit (EConsoleError "Authentication callback failed:"
                "Missing authentication parameters") w)).
Proof.
  intros H. rewrite handleCallback_eq.
  assert (negb (present (query_code uri)) || negb (present (query_state uri)) = true) as ->.
  { destruct H as [-> | ->]; [done|]. apply orb_true_r. }
  reflexivity.
Qed.

(** X19. The callback is decided by the durable store alone: with another
    content of the in-memory pending map the handler returns the same, sends
    the same and leaves the same store; only the map itself differs. *)
Theorem handleCallback_ignores_memory (uri : CallbackUri) (w : World)
    (memory : gmap string PendingEntry) :
  let w' := set_pendingAuth (fun _ => memory) w in
  (handleCallback uri w').1 = (handleCallback uri w).1 ∧
  secrets (handleCallback uri w').2 = secrets (handleCallback uri w).2 ∧
  trace (handleCallback uri w').2 = trace (handleCallback uri w).2 ∧
  network (handleCallback uri w').2 = network (handleCallback uri w).2.
Proof.
  intros w'. rewrite !handleCallback_eq. cbv zeta.
  change (secrets w') with (secrets w). change (host w') with (host w).
  change (next_exchange w') with (next_exchange w).
  destruct (negb (present (query_code uri)) || negb (present (query_state uri))); [done|].
  destruct (negb (present (secrets w !! _))); [done|].
  destruct (outcome (next_exchange w)) as [msg|r]; [done|].
  destruct (ok r); [|done].
  by destruct (json r) as [[tokens|e m|d]|].
Qed.

(** X20. Signing out removes everything [storeTokens] wrote: storing a payload
    and then signing out leaves the same store as signing out alone. *)
Theorem signOut_undoes_storeTokens (tokens : AuthTokens) (w : World) :
  ∃ w1 w2 w3,
    storeTokens tokens w = (Ok tt, w1) ∧ signOut w1 = (Ok tt, w2) ∧
    signOut w = (Ok tt, w3) ∧ w2 = w3.
Proof.
  do 3 eexists. split; [apply storeTokens_eq|]. split; [apply signOut_eq|].
  split; [apply signOut_eq|].
  unfold signed_out, set_secrets. simpl. f_equal.
  apply map_eq. intros k.
  destruct (decide (k = TOKEN_KEYS.ACCESS_TOKEN)) as [->|Ha];
    [by destruct (purge_absent (tokens_written tokens (secrets w))) as (-> & _),
          (purge_absent (secrets w)) as (-> & _)|].
  destruct (decide (k = TOKEN_KEYS.REFRESH_TOKEN)) as [->|Hr];
    [by destruct (purge_absent (tokens_written tokens (secrets w))) as (_ & -> & _),
          (purge_absent (secrets w)) as (_ & -> & _)|].
  destruct (decide (k = TOKEN_KEYS.SESSION_ID)) as [->|Hs];
    [by destruct (purge_absent (tokens_written tokens (secrets w))) as (_ & _ & -> & _),
          (purge_absent (secrets w)) as (_ & _ & -> & _)|].
  destruct (decide (k = TOKEN_KEYS.ORGANIZATION_ID)) as [->|Ho];
    [by destruct (purge_absent (tokens_written tokens (secrets w))) as (_ & _ & _ & ->),
          (purge_absent (secrets w)) as (_ & _ & _ & ->)|].
  unfold purge. rewrite !lookup_delete_ne by done. by apply tokens_written_other.
Qed.

(** ** Concrete runs *)

Lemma signOut_keeps_durable_verifier_witness :
  ∃ w1 w2,
    signOut (CallbackSamples.world CallbackSamples.pending [CallbackSamples.accepted])
      = (Ok tt, w1) ∧
    pendingAuth w1 = ∅ ∧
    handleCallback CallbackSamples.uri w1 = (Ok tt, w2) ∧
    fetch_requests (trace w2) = [exchange_request Samples.production "abc" "v1" "xyz"].
Proof.
  destruct (signOut_keeps_durable_verifier
              (CallbackSamples.world CallbackSamples.pending [CallbackSamples.accepted])
              CallbackSamples.uri "abc" "xyz" "v1"
              eq_refl eq_refl eq_refl eq_refl eq_refl eq_refl)
    as (w1 & w2 & H1 & H2 & _ & H3 & H4).
  exists w1, w2. repeat split; assumption.
Defined.

Lemma getUserInfo_session_read_first_witness :
  ∃ w1,
    getUserInfo (fun _ => "")
      (Samples.world PlatformSamples.refresh_only [CallbackSamples.accepted; Samples.answer 204 None])
      = (Ok None, w1) ∧
    secrets w1 !! TOKEN_KEYS.SESSION_ID = Some "S" ∧
    network w1 = [Samples.answer 204 None].
Proof.
  destruct (getUserInfo_session_read_first (fun _ => "")
              (Samples.world PlatformSamples.refresh_only
                 [CallbackSamples.accepted; Samples.answer 204 None])
              "R" _ CallbackSamples.issued "S"
              eq_refl eq_refl eq_refl eq_refl eq_refl eq_refl eq_refl eq_refl eq_refl eq_refl)
    as (w1 & valid & w2 & Hget & Hs & Hinfo & _).
  exists w1. split; [exact Hinfo|]. split; [exact Hs|].
  vm_compute in Hget. by injection Hget as <-.
Defined.

Lemma handleCallback_signs_in_witness :
  ∃ w', handleCallback CallbackSamples.uri
          (CallbackSamples.world CallbackSamples.pending [CallbackSamples.accepted])
          = (Ok tt, w') ∧
    getAccessToken w' = (Ok (Some "A"), w') ∧
    getSessionId w' = (Ok (Some "S"), w').
Proof.
  destruct (handleCallback_signs_in CallbackSamples.uri
              (CallbackSamples.world CallbackSamples.pending [CallbackSamples.accepted])
              "abc" "xyz" "v1" _ CallbackSamples.issued
              eq_refl eq_refl eq_refl eq_refl eq_refl eq_refl eq_refl eq_refl eq_refl eq_refl)
    as (w' & H1 & H2 & _ & H3 & _).
  exists w'. split; [exact H1|]. split; [exact H2|exact (H3 eq_refl)].
Defined.

Lemma request_retries_bounded_by_writes_witness :
  concurrent_writes (network ClientSamples.rotating) = 2 ∧
  (request 7 ClientSamples.client ClientSamples.endpoint ClientSamples.options
     ClientSamples.rotating).1 = Ok (JData "42") ∧
  concurrent_writes (network ClientSamples.stale) = 0 ∧
  (request 1 ClientSamples.client ClientSamples.endpoint ClientSamples.options
     ClientSamples.stale).1 = Throw "Authentication required".
Proof.
  split; [reflexivity|]. split; [|split; [reflexivity|]].
  - destruct (request_retries_bounded_by_writes ClientSamples.client ClientSamples.endpoint
                ClientSamples.options ClientSamples.rotating 7) as (_ & ->).
    + simpl. lia.
    + vm_compute. reflexivity.
  - destruct (request_retries_bounded_by_writes ClientSamples.client ClientSamples.endpoint
                ClientSamples.options ClientSamples.stale 1) as (_ & ->).
    + simpl. lia.
    + vm_compute. reflexivity.
Defined.

Lemma authenticate_opens_browser_witness :
  ∃ d',
    authenticate PlatformSamples.URL_href PlatformSamples.digest PlatformSamples.auth_url_of
      PlatformSamples.entropy PlatformSamples.entropy'
      (PlatformSamples.desktop [PlatformSamples.invited]) = (Ok tt, d') ∧
    opened d' = ["https://clerk.softcodes.ai/auth?ticket=1"].
Proof.
  destruct (authenticate_opens_browser PlatformSamples.URL_href PlatformSamples.digest
              PlatformSamples.auth_url_of PlatformSamples.entropy PlatformSamples.entropy'
              (PlatformSamples.desktop [PlatformSamples.invited]))
    as (d' & Hauth & Hopen & _).
  exists d'. split; [exact Hauth|].
  destruct (Hopen _ _ _ "https://clerk.softcodes.ai/auth?ticket=1"
              eq_refl eq_refl eq_refl eq_refl eq_refl) as (Ho & _); [discriminate|].
  exact Ho.
Defined.

Lemma request_quiet_network_witness :
  ∃ w', request 5 ClientSamples.client ClientSamples.endpoint ClientSamples.options
          ClientSamples.stale = (Throw "Authentication required", w') ∧
    network w' = [ClientSamples.balance].
Proof.
  destruct (request_quiet_network 4 ClientSamples.client ClientSamples.endpoint
              ClientSamples.options ClientSamples.stale) as (_ & H401).
  - repeat constructor.
  - eexists. split; [exact (H401 "T1" _ _ eq_refl eq_refl eq_refl eq_refl)|]. reflexivity.
Defined.

Lemma base64URLEncode_injective_witness :
  base64URLEncode [Byte.xfb; Byte.xff] = "-_8" ∧
  base64URLEncode [Byte.xfb; Byte.xfe] ≠ base64URLEncode [Byte.xfb; Byte.xff].
Proof.
  split; [reflexivity|].
  intros H. apply base64URLEncode_injective in H. discriminate H.
Defined.

Lemma authenticate_initiation_url_witness :
  ∃ d' req,
    authenticate PlatformSamples.URL_href PlatformSamples.digest PlatformSamples.auth_url_of
      PlatformSamples.entropy PlatformSamples.entropy'
      (PlatformSamples.desktop [PlatformSamples.invited]) = (Ok tt, d') ∧
    fetch_requests (trace (world d')) = [req] ∧
    url req =
      "https://softcodes.ai/api/auth/initiate-vscode-auth?redirect_uri=vscode-softcodes%3A%2F%2Fauth%2Fcallback&code_challenge=q6urq6urq6urq6urq6urq6urq6urq6urq6urq6urq6s&state=BRAbJjE8R1JdaHN-iZSfqg".
Proof.
  destruct (authenticate_initiation_url PlatformSamples.URL_href PlatformSamples.digest
              PlatformSamples.auth_url_of PlatformSamples.entropy PlatformSamples.entropy'
              (PlatformSamples.desktop [PlatformSamples.invited]) _ eq_refl)
    as (d' & req & H1 & H2 & _ & H3).
  exists d', req. split; [exact H1|]. split; [exact H2|].
  rewrite H3. vm_compute. reflexivity.
Defined.


Lemma authenticate_then_callback_witness :
  ∃ d' w2,
    authenticate PlatformSamples.URL_href PlatformSamples.digest PlatformSamples.auth_url_of
      PlatformSamples.entropy PlatformSamples.entropy'
      (PlatformSamples.desktop [PlatformSamples.invited; CallbackSamples.accepted])
      = (Ok tt, d') ∧
    opened d' = ["https://clerk.softcodes.ai/auth?ticket=1"] ∧
    handleCallback PlatformSamples.callback (world d') = (Ok tt, w2) ∧
    secrets w2 !! TOKEN_KEYS.ACCESS_TOKEN = Some "A".
Proof.
  destruct (authenticate_then_callback PlatformSamples.URL_href PlatformSamples.digest
              PlatformSamples.auth_url_of PlatformSamples.entropy PlatformSamples.entropy'
              (PlatformSamples.desktop [PlatformSamples.invited; CallbackSamples.accepted])
              PlatformSamples.callback "abc" eq_refl eq_refl eq_refl eq_refl)
    as (d' & w2 & H1 & H2 & _).
  exists d', w2. split; [exact H1|].
  vm_compute in H1. injection H1 as <-.
  split; [reflexivity|]. split; [exact H2|].
  vm_compute in H2. injection H2 as <-. reflexivity.
Defined.

Lemma handleCallback_missing_params_witness :
  fetch_requests
    (trace (handleCallback PlatformSamples.no_code
              (CallbackSamples.world CallbackSamples.pending [CallbackSamples.accepted])).2)
    = [] ∧
  secrets (handleCallback PlatformSamples.no_code
             (CallbackSamples.world CallbackSamples.pending [CallbackSamples.accepted])).2
    = CallbackSamples.pending.
Proof.
  rewrite (handleCallback_missing_params PlatformSamples.no_code
             (CallbackSamples.world CallbackSamples.pending [CallbackSamples.accepted])
             (or_introl eq_refl)).
  split; reflexivity.
Defined.
